(** * Replay engine of the WebGL trace player (webgl-main.cc, webgl-shared.h)

    A shallow embedding of the C++ replay engine: the per-window handle
    table ([CanvasContext]), the one-time extension bootstrap, the resource
    blob store, the creation and selection of Surface Contexts and the
    step-driven frame loop of [Replay], followed by the properties of the
    specification that concern them and by further properties of the code.

    Conventions of the embedding.
    - C++ [int], [GLuint] and [size_t] values are integers of [Z].  The
      [size_t] sum of [GetBinData] can leave its type's range, and its
      wrap-around is written out; the only other arithmetic, the increment of
      [step_index_], is applied to an index that has just been found inside
      the step array.
    - [unordered_map<int, GLuint>] is a [gmap Z Z]; [operator[]] on a key that
      is absent inserts the value-initialised entry, which is written out.
    - Calls into SDL, GL and stdio are recorded as a list of [Effect]s, in
      program order.  The diagnostics macros CHECK_SDL and CHECK_GL only print
      a pending backend error and never change state or control flow; they are
      not recorded.
    - [exit(1)] and undefined behaviour (an out-of-bounds read, a write
      through a null pointer) end a computation with [Exit] and [Fault]. *)

From Stdlib Require Import ZArith List String Ascii Bool Lia.
From Stdlib.Init Require Import Byte.
From stdpp Require Import base option list gmap strings pretty.

Local Open Scope string_scope.
Local Open Scope Z_scope.
Local Open Scope list_scope.

(* ===================================================================== *)
(** ** Effects and computations *)
(* ===================================================================== *)

(** Lines written with [printf]. *)
Inductive Message : Type :=
| MsgGlVersion (v : string)            (* "GL_VERSION: %s\n" *)
| MsgGlExtensions (e : string)         (* "GL_EXTENSIONS: %s\n" *)
| MsgNoInstancedArrays                 (* "Instanced arrays extension not available!\n" *)
| MsgCantFindMyself                    (* "Can't find myself!\n" *)
| MsgUnableToOpen (bin_name : string)  (* "Unable to open bin file %s\n" *)
| MsgUnableToAllocate                  (* "Unable to allocate bin memory\n" *)
| MsgWindowEvent (event data1 data2 : Z) (* "SDL_WINDOWEVENT(%d, %d, %d)\n" *)
| MsgSdlEvent (type : Z)               (* "SDL event: %d\n" *)
| MsgStep (step_index : Z).            (* "STEP %d:\n" *)

(** Observable actions of the engine, in the order the code performs them.
    [Invoke i] is the call through the function pointer [steps_[i]]. *)
Inductive Effect : Type :=
| Printf (m : Message)
| SDL_GL_MakeCurrent (window gl : Z)
| SDL_SetWindowSize (window w h : Z)
| glViewport (x y w h : Z)
| SDL_GL_SwapWindow (window : Z)
| SDL_Delay (ms : Z)
| glGetString (name : string)
| SDL_GL_ExtensionSupported (name : string)
| SDL_GL_GetProcAddress (name : string)
| SDL_Init
| SDL_GetDesktopDisplayMode
| SDL_GL_DeleteContext (gl : Z)
| SDL_DestroyWindow (window : Z)
| SDL_Quit
| Invoke (step_index : Z).

(** How a computation ends: it returns, the process exits, or the code has
    run into undefined behaviour. *)
Inductive result (A : Type) : Type :=
| Ret (a : A)
| Exit (code : Z)
| Fault.
Arguments Ret {A} a.
Arguments Exit {A} code.
Arguments Fault {A}.

(** A computation: the effects it performed, and how it ended. *)
Definition M (A : Type) : Type := (list Effect * result A)%type.

Definition ret {A} (a : A) : M A := ([], Ret a).
Definition emit (e : Effect) : M unit := ([e], Ret tt).
Definition exit {A} (code : Z) : M A := ([], Exit code).
Definition fault {A} : M A := ([], Fault).

Definition bind {A B} (m : M A) (f : A -> M B) : M B :=
  match m with
  | (l, Ret a) => let '(l', r) := f a in (l ++ l', r)
  | (l, Exit c) => (l, Exit c)
  | (l, Fault) => (l, Fault)
  end.

Definition lift {A} (r : result A) : M A := ([], r).

Declare Scope replay_scope.
Delimit Scope replay_scope with replay.
Notation "x <- c1 ;; c2" := (bind c1 (fun x => c2))
  (at level 100, c1 at next level, right associativity) : replay_scope.
Notation "c1 ;;; c2" := (bind c1 (fun _ => c2))
  (at level 100, right associativity) : replay_scope.
Local Open Scope replay_scope.

(* ===================================================================== *)
(** ** CanvasContext *)
(* ===================================================================== *)

(** The fields of [class CanvasContext].  [window_] and [gl_] are the native
    handles returned by SDL. *)
Record CanvasContext : Type := mkCanvasContext {
  window_title_ : string;
  handle_ : Z;
  window_ : Z;
  gl_ : Z;
  width_ : Z;
  height_ : Z;
  object_map_ : gmap Z Z
}.

Definition set_size (width height : Z) (c : CanvasContext) : CanvasContext :=
  mkCanvasContext (window_title_ c) (handle_ c) (window_ c) (gl_ c)
                  width height (object_map_ c).

Definition set_object_map (m : gmap Z Z) (c : CanvasContext) : CanvasContext :=
  mkCanvasContext (window_title_ c) (handle_ c) (window_ c) (gl_ c)
                  (width_ c) (height_ c) m.

(** [void CanvasContext::MakeCurrent(int width = -1, int height = -1)].
    It cannot fail; it returns its effects and the updated object. *)
Definition MakeCurrent (width height : Z) (c : CanvasContext)
  : list Effect * CanvasContext :=
  let current := [SDL_GL_MakeCurrent (window_ c) (gl_ c)] in
  if negb (width =? -1) && negb (height =? -1) then
    if negb (width =? width_ c) || negb (height =? height_ c) then
      (* Resized. *)
      (current ++ [SDL_SetWindowSize (window_ c) width height;
                   glViewport 0 0 width height],
       set_size width height c)
    else (current, c)
  else (current, c).

(** [void CanvasContext::Swap()]. *)
Definition Swap (c : CanvasContext) : list Effect :=
  [SDL_GL_MakeCurrent (window_ c) (gl_ c); SDL_GL_SwapWindow (window_ c)].

(** [GLuint CanvasContext::GetObject(int handle)]:
    [return handle ? object_map_[handle] : 0;].  [operator[]] is evaluated
    only when [handle] is not zero, and then default-inserts [0] if the key
    is absent. *)
Definition GetObject (handle : Z) (c : CanvasContext) : Z * CanvasContext :=
  if handle =? 0 then (0, c)
  else match object_map_ c !! handle with
       | Some id => (id, c)
       | None => (0, set_object_map (<[handle := 0]> (object_map_ c)) c)
       end.

(** [void CanvasContext::SetObject(int handle, GLuint id)]:
    [object_map_[handle] = id;]. *)
Definition SetObject (handle id : Z) (c : CanvasContext) : CanvasContext :=
  set_object_map (<[handle := id]> (object_map_ c)) c.

(** The public methods of a [CanvasContext], as a recorded operation may call
    them, and a sequence of such calls on one object. *)
Inductive ContextCall : Type :=
| CallMakeCurrent (width height : Z)
| CallSwap
| CallGetObject (handle : Z)
| CallSetObject (handle id : Z).

Definition call (op : ContextCall) (c : CanvasContext) : CanvasContext :=
  match op with
  | CallMakeCurrent w h => snd (MakeCurrent w h c)
  | CallSwap => c
  | CallGetObject h => snd (GetObject h c)
  | CallSetObject h id => SetObject h id c
  end.

Definition calls (ops : list ContextCall) (c : CanvasContext) : CanvasContext :=
  fold_left (fun c op => call op c) ops c.

Definition binds (h : Z) (op : ContextCall) : bool :=
  match op with
  | CallSetObject h' _ => h' =? h
  | _ => false
  end.

(* ===================================================================== *)
(** ** Extension bootstrap *)
(* ===================================================================== *)

(** The process-wide variables of webgl-main.cc: the guard flag and the three
    resolved entry points (a function pointer is the address the backend
    returned, [0] while unresolved). *)
Record Globals : Type := mkGlobals {
  extensions_initialized : bool;
  glDrawArraysInstanced : Z;
  glDrawElementsInstanced : Z;
  glVertexAttribDivisor : Z
}.

(** The variables as their initialisers leave them at process start. *)
Definition globals_at_start : Globals := mkGlobals false 0 0 0.

(** What the graphics backend answers to the queries of the bootstrap. *)
Record Backend : Type := mkBackend {
  gl_string : string -> string;          (* glGetString *)
  extension_supported : string -> bool;  (* SDL_GL_ExtensionSupported *)
  proc_address : string -> Z             (* SDL_GL_GetProcAddress *)
}.

(** [void InitializeExtensions()]. *)
Definition InitializeExtensions (be : Backend) (g : Globals) : M Globals :=
  if extensions_initialized g then ret g
  else
    let g1 := mkGlobals true (glDrawArraysInstanced g)
                        (glDrawElementsInstanced g) (glVertexAttribDivisor g) in
    emit (glGetString "GL_VERSION");;;
    emit (Printf (MsgGlVersion (gl_string be "GL_VERSION")));;;
    emit (glGetString "GL_EXTENSIONS");;;
    emit (Printf (MsgGlExtensions (gl_string be "GL_EXTENSIONS")));;;
    emit (SDL_GL_ExtensionSupported "GL_ARB_instanced_arrays");;;
    if negb (extension_supported be "GL_ARB_instanced_arrays") then
      emit (Printf MsgNoInstancedArrays);;;
      exit 1
    else
      emit (SDL_GL_GetProcAddress "glDrawArraysInstancedARB");;;
      emit (SDL_GL_GetProcAddress "glDrawElementsInstancedARB");;;
      emit (SDL_GL_GetProcAddress "glVertexAttribDivisorARB");;;
      ret (mkGlobals (extensions_initialized g1)
                     (proc_address be "glDrawArraysInstancedARB")
                     (proc_address be "glDrawElementsInstancedARB")
                     (proc_address be "glVertexAttribDivisorARB")).

(** [n] calls in a row, each on the state the previous one left. *)
Fixpoint InitializeExtensions_times (n : nat) (be : Backend) (g : Globals)
  : M Globals :=
  match n with
  | O => ret g
  | S n' => g' <- InitializeExtensions be g ;;
            InitializeExtensions_times n' be g'
  end.

(* ===================================================================== *)
(** ** Replay: state *)
(* ===================================================================== *)

(** The fields of [class Replay], except [steps_].  [contexts_] owns the
    [CanvasContext] objects (the destructor deletes them); a
    [CanvasContext*] of [context_map_] is the position of the object in
    [contexts_].  [bin_data_] is [None] for the null pointer and otherwise
    the bytes of the allocation. *)
Record Replay : Type := mkReplay {
  trace_name_ : string;
  bin_name_ : string;
  step_count_ : Z;
  step_index_ : Z;
  bin_data_ : option (list byte);
  bin_data_length_ : Z;
  contexts_ : list CanvasContext;
  context_map_ : gmap Z nat
}.

(** [typedef void (*StepFunction)(Replay*)]: a recorded operation.  Its body
    is supplied from outside; it transforms the [Replay] it is handed, and it
    may end the process or misbehave.  Because the operations act on [Replay],
    the array [steps_] is kept next to the record instead of inside it. *)
Definition StepFunction : Type := Replay -> result Replay.

Definition set_step_index (i : Z) (r : Replay) : Replay :=
  mkReplay (trace_name_ r) (bin_name_ r) (step_count_ r) i
           (bin_data_ r) (bin_data_length_ r) (contexts_ r) (context_map_ r).

Definition set_bin_data (d : option (list byte)) (r : Replay) : Replay :=
  mkReplay (trace_name_ r) (bin_name_ r) (step_count_ r) (step_index_ r)
           d (bin_data_length_ r) (contexts_ r) (context_map_ r).

Definition set_bin_data_length (n : Z) (r : Replay) : Replay :=
  mkReplay (trace_name_ r) (bin_name_ r) (step_count_ r) (step_index_ r)
           (bin_data_ r) n (contexts_ r) (context_map_ r).

(** [Replay::Replay(trace_name, bin_name, steps, step_count)]: the member
    initialisers. *)
Definition Replay_new (trace_name bin_name : string) (step_count : Z) : Replay :=
  mkReplay trace_name bin_name step_count 0 None 0 [] ∅.

Definition Replay_new_calls : list Effect :=
  [SDL_Init; SDL_GetDesktopDisplayMode].

(** [Replay::~Replay()]. *)
Definition Replay_delete_calls (r : Replay) : list Effect :=
  flat_map (fun c => [SDL_GL_DeleteContext (gl_ c); SDL_DestroyWindow (window_ c)])
           (contexts_ r)
  ++ [SDL_Quit].

(* ===================================================================== *)
(** ** Replay: the resource blob *)
(* ===================================================================== *)

(** What the operating system answers while the blob is loaded. *)
Record Host : Type := mkHost {
  (* readlink("/proc/self/exe", ...): the link's target, [None] when it
     returns -1 *)
  readlink_self_exe : option string;
  (* fopen(path, "r") and the content then read: [None] when it fails *)
  file_content : string -> option (list byte);
  (* whether malloc of that many bytes returns a non-null pointer *)
  malloc_succeeds : Z -> bool
}.

(** [strrchr(file_path, '/')], [last_slash++], [*last_slash = 0]: the prefix
    of [file_path] up to and including its last slash; [None] when there is
    no slash, where [strrchr] returns the null pointer. *)
Fixpoint cut_after_last_slash (file_path : string) : option string :=
  match file_path with
  | EmptyString => None
  | String ch rest =>
      match cut_after_last_slash rest with
      | Some p => Some (String ch p)
      | None => if Ascii.eqb ch "/"%char then Some (String ch EmptyString)
                else None
      end
  end.

(** [sizeof(file_path)] for [char file_path[2048]]. *)
Definition file_path_size : nat := 2048.

(** [bool Replay::LoadResources()], the branch compiled when neither WIN32 nor
    __APPLE__ is defined.  The result of [ftell] is the length of the file,
    and [fread] reads all of it. *)
Definition LoadResources (host : Host) (r : Replay) : M (bool * Replay) :=
  match readlink_self_exe host with
  | None =>
      emit (Printf MsgCantFindMyself);;;
      ret (true, r)                                (* [return 1;] *)
  | Some target =>
      (* readlink writes at most [file_path_size - 1] bytes *)
      let file_path := substring 0 (file_path_size - 1) target in
      match cut_after_last_slash file_path with
      | None => fault                              (* write through NULL + 1 *)
      | Some dir =>
          let file_path := (dir ++ bin_name_ r)%string in
          if (file_path_size <=? String.length file_path)%nat then
            fault                                  (* strcat overruns the array *)
          else
            match file_content host file_path with
            | None =>
                emit (Printf (MsgUnableToOpen (bin_name_ r)));;;
                ret (false, r)
            | Some content =>
                let r1 := set_bin_data_length (Z.of_nat (length content)) r in
                if malloc_succeeds host (bin_data_length_ r1) then
                  ret (true, set_bin_data (Some content) r1)
                else
                  emit (Printf MsgUnableToAllocate);;;
                  ret (false, set_bin_data None r1)
            end
      end
  end.

(** The range of [size_t] (64 bits), and its wrapping sum. *)
Definition SIZE_MAX : Z := 2 ^ 64 - 1.

Definition size_t_add (a b : Z) : Z := (a + b) mod (SIZE_MAX + 1).

(** The value of a [const void*] returned by [GetBinData]: the null pointer,
    the address [off] bytes past the start of the blob's allocation, or, when
    [bin_data_] itself is null, the bare address [off]. *)
Inductive pointer : Type :=
| NULL
| BinData (off : Z)
| Wild (address : Z).

(** [const void* Replay::GetBinData(size_t offset, size_t length)]. *)
Definition GetBinData (offset length : Z) (r : Replay) : pointer :=
  if size_t_add offset length >? bin_data_length_ r then NULL
  else match bin_data_ r with
       | Some _ => BinData offset
       | None => if offset =? 0 then NULL else Wild offset
       end.

(** The [length] bytes a caller reads through a returned pointer: defined
    only when all of them lie inside the blob's allocation. *)
Definition bytes_at (r : Replay) (p : pointer) (length : Z) : option (list byte) :=
  match p, bin_data_ r with
  | BinData off, Some blob =>
      if (0 <=? off) && (0 <=? length)
         && (off + length <=? Z.of_nat (List.length blob))
      then Some (take (Z.to_nat length) (drop (Z.to_nat off) blob))
      else None
  | _, _ => None
  end.

(* ===================================================================== *)
(** ** Replay: the frame loop *)
(* ===================================================================== *)

(** The fields of [SDL_Event] the loop reads: [event.type] and, for a window
    event, [event.window.event], [.data1] and [.data2]. *)
Record SDL_Event : Type := mkEvent {
  event_type : Z;
  window_event : Z;
  window_data1 : Z;
  window_data2 : Z
}.

(** The SDL 2 values of the three enumerators the [switch] names (SDL's
    headers SDL_events.h and SDL_video.h). *)
Definition SDL_QUIT : Z := 0x100.
Definition SDL_WINDOWEVENT : Z := 0x200.
Definition SDL_WINDOWEVENT_CLOSE : Z := 14.

(** The body of the polling loop for one event: what it prints and the new
    value of [running]. *)
Definition handle_event (event : SDL_Event) (running : bool)
  : list Effect * bool :=
  if (event_type event =? SDL_WINDOWEVENT_CLOSE)
     || (event_type event =? SDL_QUIT) then
    ([], false)
  else if event_type event =? SDL_WINDOWEVENT then
    ([Printf (MsgWindowEvent (window_event event) (window_data1 event)
                             (window_data2 event))],
     if window_event event =? 14 then false else running)
  else
    ([Printf (MsgSdlEvent (event_type event))], running).

(** [while (SDL_PollEvent(&event)) { switch ... }] over the events that are
    pending when the loop starts polling. *)
Fixpoint poll_events (pending : list SDL_Event) (running : bool)
  : list Effect * bool :=
  match pending with
  | [] => ([], running)
  | event :: rest =>
      let '(l, running1) := handle_event event running in
      let '(l', running2) := poll_events rest running1 in
      (l ++ l', running2)
  end.

(** [steps_[i]]: reading outside the array is undefined. *)
Definition step_at (steps : list StepFunction) (i : Z) : option StepFunction :=
  if i <? 0 then None else steps !! Z.to_nat i.

(** [bool Replay::IssueNextStep()]. *)
Definition IssueNextStep (steps : list StepFunction) (r : Replay)
  : M (bool * Replay) :=
  emit (Printf (MsgStep (step_index_ r)));;;
  match step_at steps (step_index_ r) with
  | None => fault
  | Some step =>
      let r1 := set_step_index (step_index_ r + 1) r in
      emit (Invoke (step_index_ r));;;
      r2 <- lift (step r1) ;;
      ret (step_index_ r2 <? step_count_ r2, r2)
  end.

(** The swap loop over [contexts_]. *)
Definition swap_all (r : Replay) : list Effect :=
  flat_map Swap (contexts_ r).

(** The [while (running)] loop of [Run], entered with [running] true.
    [events] gives, iteration by iteration, the events that are pending when
    that iteration polls; once the list is used up nothing is pending any
    more.  [fuel] bounds the number of iterations; [None] means it ran out. *)
Fixpoint Run_loop (fuel : nat) (steps : list StepFunction)
    (events : list (list SDL_Event)) (r : Replay) : option (M Replay) :=
  match fuel with
  | O => None
  | S fuel' =>
      let '(polled, running) := poll_events (hd [] events) true in
      if negb running then Some (polled, Ret r)          (* [break] *)
      else
        match IssueNextStep steps r with
        | (issued, Ret (running', r1)) =>
            let frame := polled ++ issued ++ swap_all r1 ++ [SDL_Delay 16] in
            if running' then
              match Run_loop fuel' steps (tl events) r1 with
              | Some (l, res) => Some (frame ++ l, res)
              | None => None
              end
            else Some (frame, Ret r1)
        | (issued, Exit code) => Some (polled ++ issued, Exit code)
        | (issued, Fault) => Some (polled ++ issued, Fault)
        end
  end.

(** [int Replay::Run()]: the loop, then [return 0;]. *)
Definition Run (fuel : nat) (steps : list StepFunction)
    (events : list (list SDL_Event)) (r : Replay) : option (M (Z * Replay)) :=
  match Run_loop fuel steps events r with
  | Some m => Some (r' <- m ;; ret (0, r'))
  | None => None
  end.

(** [int main(int argc, char** argv)], for the values of the external
    [__trace_name], [__bin_name], [__get_steps()] and [__step_count].  The
    destructor of [replay] runs when [main] returns, not when the process
    exits from inside a step. *)
Definition main (fuel : nat) (host : Host) (trace_name bin_name : string)
    (steps : list StepFunction) (step_count : Z)
    (events : list (list SDL_Event)) : option (M Z) :=
  let replay := Replay_new trace_name bin_name step_count in
  match LoadResources host replay with
  | (loaded, Ret (false, r)) =>
      Some (Replay_new_calls ++ loaded ++ Replay_delete_calls r, Ret 1)
  | (loaded, Ret (true, r)) =>
      match Run fuel steps events r with
      | Some (ran, Ret (code, r')) =>
          Some (Replay_new_calls ++ loaded ++ ran ++ Replay_delete_calls r',
                Ret code)
      | Some (ran, Exit code) => Some (Replay_new_calls ++ loaded ++ ran, Exit code)
      | Some (ran, Fault) => Some (Replay_new_calls ++ loaded ++ ran, Fault)
      | None => None
      end
  | (loaded, Exit code) => Some (Replay_new_calls ++ loaded, Exit code)
  | (loaded, Fault) => Some (Replay_new_calls ++ loaded, Fault)
  end.

(** The exit status of the process: the value [main] returned or the argument
    of [exit]; none when the run ended in undefined behaviour. *)
Definition exit_status (r : result Z) : option Z :=
  match r with
  | Ret code => Some code
  | Exit code => Some code
  | Fault => None
  end.

(* ===================================================================== *)
(** ** Notions of the specification, and data for the examples *)
(* ===================================================================== *)

(** The effects of the one call that does the work, when the capability is
    there. *)
Definition bootstrap_effects (be : Backend) : list Effect :=
  [glGetString "GL_VERSION";
   Printf (MsgGlVersion (gl_string be "GL_VERSION"));
   glGetString "GL_EXTENSIONS";
   Printf (MsgGlExtensions (gl_string be "GL_EXTENSIONS"));
   SDL_GL_ExtensionSupported "GL_ARB_instanced_arrays";
   SDL_GL_GetProcAddress "glDrawArraysInstancedARB";
   SDL_GL_GetProcAddress "glDrawElementsInstancedARB";
   SDL_GL_GetProcAddress "glVertexAttribDivisorARB"].

(** The variables after that call. *)
Definition bootstrapped (be : Backend) : Globals :=
  mkGlobals true
            (proc_address be "glDrawArraysInstancedARB")
            (proc_address be "glDrawElementsInstancedARB")
            (proc_address be "glVertexAttribDivisorARB").

(** Two backends for the examples: one with the capability, one without. *)
Definition backend_with_instancing : Backend :=
  mkBackend (fun name => if String.eqb name "GL_VERSION" then "2.0" else "GL_ARB_instanced_arrays")
            (fun name => String.eqb name "GL_ARB_instanced_arrays")
            (fun name => 4096 + Z.of_nat (String.length name)).

Definition backend_without_instancing : Backend :=
  mkBackend (fun name => if String.eqb name "GL_VERSION" then "2.0" else "")
            (fun _ => false)
            (fun _ => 0).

(** A resource blob of 100 bytes whose last ten bytes differ from the rest. *)
Definition blob_100 : list byte := repeat x2a 90 ++ repeat xff 10.

(** A host on which loading succeeds: the executable is /opt/replay/trace and
    the resource file lies next to it. *)
Definition host_ok : Host :=
  mkHost (Some "/opt/replay/trace")
         (fun path => if String.eqb path "/opt/replay/trace.bin"
                      then Some blob_100 else None)
         (fun _ => true).

(** The same host when the allocation of the buffer fails. *)
Definition host_out_of_memory : Host :=
  mkHost (readlink_self_exe host_ok) (file_content host_ok) (fun _ => false).

(** The same host when the resource file is missing. *)
Definition host_without_bin : Host :=
  mkHost (readlink_self_exe host_ok) (fun _ => None) (fun _ => true).

(** A host on which [readlink] fails. *)
Definition host_without_proc : Host :=
  mkHost None (file_content host_ok) (fun _ => true).

(** The orchestrator after a successful load on [host_ok]. *)
Definition replay_loaded : Replay :=
  set_bin_data (Some blob_100)
    (set_bin_data_length 100 (Replay_new "trace" "trace.bin" 1)).

(** The events the specification names as ending the run: a quit event, a
    window-close event, and a window event whose sub-event is the
    window-close one. *)
Definition terminating (event : SDL_Event) : Prop :=
  event_type event = SDL_QUIT
  \/ event_type event = SDL_WINDOWEVENT_CLOSE
  \/ (event_type event = SDL_WINDOWEVENT /\ window_event event = 14).

(** A recorded operation that leaves the orchestrator's cursor alone: it does
    not re-enter [IssueNextStep] or [Run]. *)
Definition keeps_cursor (step : StepFunction) : Prop :=
  forall r r', step r = Ret r' ->
    step_index_ r' = step_index_ r /\ step_count_ r' = step_count_ r.

(** A recorded operation that always returns to its caller. *)
Definition returns (step : StepFunction) : Prop :=
  forall r, exists r', step r = Ret r'.

(** The indices of the recorded operations a trace of effects invokes, in the
    order of their invocation. *)
Definition invoked (l : list Effect) : list Z :=
  flat_map (fun e => match e with Invoke i => [i] | _ => [] end) l.

(** The invocations and the pacing delays of a trace, in order. *)
Definition beats (l : list Effect) : list Effect :=
  List.filter (fun e => match e with
                        | Invoke _ | SDL_Delay _ => true
                        | _ => false
                        end) l.

(** The frames as the specification describes them, by recursion on the
    operations still to run: each frame polls, stops if told to, runs the
    next operation [i], presents every surface and pauses. *)
Fixpoint frames (todo : list StepFunction) (i : Z)
    (events : list (list SDL_Event)) (r : Replay) : M Replay :=
  match todo with
  | [] => ret r
  | step :: rest =>
      let '(polled, running) := poll_events (hd [] events) true in
      if negb running then (polled, Ret r)
      else
        let issued := [Printf (MsgStep i); Invoke i] in
        match step (set_step_index (i + 1) r) with
        | Ret r1 =>
            let '(l, res) := frames rest (i + 1) (tl events) r1 in
            ((polled ++ issued ++ swap_all r1 ++ [SDL_Delay 16]) ++ l, res)
        | Exit code => (polled ++ issued, Exit code)
        | Fault => (polled ++ issued, Fault)
        end
  end.

(** [n] consecutive indices starting at [i]. *)
Fixpoint indices_from (i : Z) (n : nat) : list Z :=
  match n with
  | O => []
  | S n' => i :: indices_from (i + 1) n'
  end.

(** One invocation followed by one pacing delay, for each of [n] consecutive
    indices starting at [i]. *)
Fixpoint beats_from (i : Z) (n : nat) : list Effect :=
  match n with
  | O => []
  | S n' => Invoke i :: SDL_Delay 16 :: beats_from (i + 1) n'
  end.

(** A recorded operation for the examples: it binds trace handle 1 to native
    id [id] in every Surface Context. *)
Definition step_bind (id : Z) : StepFunction :=
  fun r =>
    Ret (mkReplay (trace_name_ r) (bin_name_ r) (step_count_ r) (step_index_ r)
                  (bin_data_ r) (bin_data_length_ r)
                  (map (SetObject 1 id) (contexts_ r)) (context_map_ r)).

(** An orchestrator with two Surface Contexts, handles 1 and 2, created in
    this order, and three operations to run. *)
Definition replay_two_windows : Replay :=
  mkReplay "trace" "trace.bin" 3 0 (Some blob_100) 100
           [mkCanvasContext "trace" 1 100 200 800 480 ∅;
            mkCanvasContext "trace" 2 101 201 800 480 ∅]
           (<[1 := 0%nat]> (<[2 := 1%nat]> ∅)).

(* ===================================================================== *)
(** ** Creating and selecting Surface Contexts *)
(* ===================================================================== *)

(** The SDL calls that only the constructor of [CanvasContext] makes. *)
Inductive SetupCall : Type :=
| SDL_GL_SetAttribute (attr : string) (value : Z)
| SDL_CreateWindow (title : string) (w h : Z)
| SDL_GL_CreateContext (window : Z)
| SDL_GL_SetSwapInterval (interval : Z)
| SDL_GL_GetDrawableSize (window : Z).

(** A call made while a context is created: one of the above, or one of the
    effects of the rest of the engine. *)
Definition Call : Type := (SetupCall + Effect)%type.

(** What SDL answers while a window and its GL context are created.  The
    [n]-th creation of the process (counting from 0) is told apart from the
    others, since every call of [SDL_CreateWindow] yields a window of its
    own. *)
Record Windowing : Type := mkWindowing {
  created_window : nat -> string -> Z;   (* SDL_CreateWindow *)
  created_gl : nat -> Z -> Z;            (* SDL_GL_CreateContext *)
  drawable_size : Z -> Z * Z             (* SDL_GL_GetDrawableSize *)
}.

(** [sizeof(title)] for [char title[2048]]. *)
Definition title_size : nat := 2048.

(** [sprintf(title, "%s : %d", window_title_, handle_)]. *)
Definition window_title_of (window_title : string) (handle : Z) : string :=
  (window_title ++ " : " ++ pretty handle)%string.

(** [CanvasContext::CanvasContext(window_title, handle)], as the [n]-th
    creation of the process.  Nothing checks what SDL returns. *)
Definition CanvasContext_new (win : Windowing) (be : Backend) (n : nat)
    (window_title : string) (handle : Z) (g : Globals)
  : list Call * result (CanvasContext * Globals) :=
  let attributes :=
    [inl (SDL_GL_SetAttribute "SDL_GL_CONTEXT_MAJOR_VERSION" 2);
     inl (SDL_GL_SetAttribute "SDL_GL_CONTEXT_MINOR_VERSION" 0);
     inl (SDL_GL_SetAttribute "SDL_GL_DOUBLEBUFFER" 1);
     inl (SDL_GL_SetAttribute "SDL_GL_DEPTH_SIZE" 24)] in
  let title := window_title_of window_title handle in
  if (title_size <=? String.length title)%nat then
    (attributes, Fault)                     (* sprintf overruns the array *)
  else
    let window := created_window win n title in
    let gl := created_gl win n window in
    let created :=
      attributes ++ [inl (SDL_CreateWindow title 800 480);
                     inl (SDL_GL_CreateContext window);
                     inr (SDL_GL_MakeCurrent window gl)] in
    match InitializeExtensions be g with
    | (l, Ret g') =>
        let '(width, height) := drawable_size win window in
        (created ++ map inr l
           ++ [inl (SDL_GL_SetSwapInterval 0);
               inl (SDL_GL_GetDrawableSize window);
               inr (glViewport 0 0 width height)],
         Ret (mkCanvasContext window_title handle window gl width height ∅, g'))
    | (l, Exit code) => (created ++ map inr l, Exit code)
    | (l, Fault) => (created ++ map inr l, Fault)
    end.

Definition set_contexts (contexts : list CanvasContext)
    (context_map : gmap Z nat) (r : Replay) : Replay :=
  mkReplay (trace_name_ r) (bin_name_ r) (step_count_ r) (step_index_ r)
           (bin_data_ r) (bin_data_length_ r) contexts context_map.

(** [CanvasContext* Replay::CreateContext(int handle)]: the new object is
    pushed onto [contexts_], so the pointer to it is its position there. *)
Definition CreateContext (win : Windowing) (be : Backend) (handle : Z)
    (g : Globals) (r : Replay) : list Call * result (nat * Globals * Replay) :=
  let context := length (contexts_ r) in
  match CanvasContext_new win be context (trace_name_ r) handle g with
  | (l, Ret (c, g')) =>
      (l, Ret (context, g',
               set_contexts (contexts_ r ++ [c])
                            (<[handle := context]> (context_map_ r)) r))
  | (l, Exit code) => (l, Exit code)
  | (l, Fault) => (l, Fault)
  end.

(** [CanvasContext* Replay::MakeContextCurrent(int handle, int width,
    int height)].  For a handle that is not registered, [context_map_[handle]]
    is a null pointer, and [MakeCurrent] is called through it.  A position
    outside [contexts_] would be a dangling pointer; [registered_ok] below
    rules it out. *)
Definition MakeContextCurrent (handle width height : Z) (r : Replay)
  : M (nat * Replay) :=
  match context_map_ r !! handle with
  | None => fault
  | Some context =>
      match contexts_ r !! context with
      | None => fault
      | Some c =>
          let '(l, c') := MakeCurrent width height c in
          (l, Ret (context,
                   set_contexts (<[context := c']> (contexts_ r))
                                (context_map_ r) r))
      end
  end.

(** Creating one context per handle of a list, in order. *)
Fixpoint CreateContexts (win : Windowing) (be : Backend) (handles : list Z)
    (g : Globals) (r : Replay) : list Call * result (Globals * Replay) :=
  match handles with
  | [] => ([], Ret (g, r))
  | handle :: rest =>
      match CreateContext win be handle g r with
      | (l, Ret (_, g', r')) =>
          let '(l', res) := CreateContexts win be rest g' r' in
          (l ++ l', res)
      | (l, Exit code) => (l, Exit code)
      | (l, Fault) => (l, Fault)
      end
  end.

(** Every registered handle leads to a live context that carries it. *)
Definition registered_ok (r : Replay) : Prop :=
  forall handle context,
    context_map_ r !! handle = Some context ->
    exists c, contexts_ r !! context = Some c /\ handle_ c = handle.

(** The windows a trace of effects presents, in order. *)
Definition presented (l : list Effect) : list Z :=
  flat_map (fun e => match e with SDL_GL_SwapWindow w => [w] | _ => [] end) l.

(** The number of capability queries among the calls of a creation. *)
Definition capability_queries (l : list Call) : nat :=
  length (List.filter (fun c => match c with
                                | inr (SDL_GL_ExtensionSupported _) => true
                                | _ => false
                                end) l).

(** SDL answers for the examples: the [n]-th window is [100 + n], its GL
    context [200 + n], and every drawable is 800 by 480. *)
Definition windowing_example : Windowing :=
  mkWindowing (fun n _ => 100 + Z.of_nat n)
              (fun n _ => 200 + Z.of_nat n)
              (fun _ => (800, 480)).

(** The native id that the last [SetObject] for handle [h] in a history of
    calls binds, if the history has one. *)
Fixpoint last_binding (h : Z) (ops : list ContextCall) : option Z :=
  match ops with
  | [] => None
  | op :: rest =>
      match last_binding h rest with
      | Some id => Some id
      | None => match op with
                | CallSetObject h' id => if h' =? h then Some id else None
                | _ => None
                end
      end
  end.

(* ===================================================================== *)
(** ** The handle table *)
(* ===================================================================== *)

Section HandleTable.

Implicit Types (c : CanvasContext) (h id : Z).

Lemma object_map_set_size w h' c :
  object_map_ (set_size w h' c) = object_map_ c.
Proof. reflexivity. Qed.

Lemma object_map_MakeCurrent w h' c :
  object_map_ (snd (MakeCurrent w h' c)) = object_map_ c.
Proof.
  unfold MakeCurrent.
  destruct (negb (w =? -1) && negb (h' =? -1)); [|reflexivity].
  destruct (negb (w =? width_ c) || negb (h' =? height_ c)); reflexivity.
Qed.

(** A lookup that finds an entry returns it and leaves the object alone. *)
Lemma GetObject_bound h id c :
  h <> 0 -> object_map_ c !! h = Some id -> GetObject h c = (id, c).
Proof.
  intros Hh Hlook. unfold GetObject.
  destruct (Z.eqb_spec h 0) as [->|_]; [congruence|].
  now rewrite Hlook.
Qed.

(** An entry survives every call that does not bind its handle anew. *)
Lemma call_keeps_binding h id op c :
  binds h op = false ->
  object_map_ c !! h = Some id ->
  object_map_ (call op c) !! h = Some id.
Proof.
  intros Hop Hlook. destruct op as [w h'| |h'|h' id']; simpl in *.
  - now rewrite object_map_MakeCurrent.
  - exact Hlook.
  - unfold GetObject. destruct (h' =? 0); [exact Hlook|].
    destruct (object_map_ c !! h') as [x|] eqn:Hother; [exact Hlook|].
    simpl. rewrite lookup_insert_ne; [exact Hlook|congruence].
  - apply Z.eqb_neq in Hop. unfold SetObject. simpl.
    now rewrite lookup_insert_ne.
Qed.

Lemma calls_keep_binding h id ops : forall c,
  forallb (fun op => negb (binds h op)) ops = true ->
  object_map_ c !! h = Some id ->
  object_map_ (calls ops c) !! h = Some id.
Proof.
  induction ops as [|op ops IH]; intros c Hops Hlook; [exact Hlook|].
  simpl in Hops. apply andb_prop in Hops as [Hop Hops].
  apply negb_true_iff in Hop.
  unfold calls. simpl. apply IH; [exact Hops|].
  now apply call_keeps_binding.
Qed.

Lemma calls_app ops1 ops2 c :
  calls (ops1 ++ ops2) c = calls ops2 (calls ops1 c).
Proof. unfold calls. apply fold_left_app. Qed.

End HandleTable.

(** C5. For every Surface Context and every state of its handle table,
    [GetObject 0] returns the zero native id ("no object"), and it does so
    without a table lookup: the context, its table included, is returned
    exactly as it was. *)
Theorem GetObject_zero_is_no_object :
  forall c : CanvasContext, GetObject 0 c = (0, c).
Proof. intros c. reflexivity. Qed.

(** C10. For a non-zero handle [h] that has no entry in the handle table,
    [GetObject h] returns 0 rather than failing, and it inserts the entry
    [h := 0]: afterwards the table is the old one with that entry added, its
    size has grown by one, and a second [GetObject h] finds the entry and
    changes nothing more. *)
Theorem GetObject_unmapped_inserts_zero :
  forall (h : Z) (c : CanvasContext),
    h <> 0 ->
    object_map_ c !! h = None ->
    let c' := snd (GetObject h c) in
    fst (GetObject h c) = 0
    /\ object_map_ c' = <[h := 0]> (object_map_ c)
    /\ object_map_ c' !! h = Some 0
    /\ size (object_map_ c') = S (size (object_map_ c))
    /\ GetObject h c' = (0, c').
Proof.
  intros h c Hh Hnone. unfold GetObject at 1 2.
  destruct (Z.eqb_spec h 0) as [->|_]; [congruence|].
  rewrite Hnone. simpl.
  assert (Hfound : <[h := 0]> (object_map_ c) !! h = Some 0)
    by apply lookup_insert_eq.
  repeat split.
  - exact Hfound.
  - now apply map_size_insert_None.
  - now apply GetObject_bound.
Qed.

Lemma GetObject_unmapped_inserts_zero_witness :
  let c := mkCanvasContext "trace" 1 100 200 800 480 ∅ in
  let c' := snd (GetObject 7 c) in
  fst (GetObject 7 c) = 0
  /\ object_map_ c' = <[7 := 0]> (object_map_ c)
  /\ object_map_ c' !! 7 = Some 0
  /\ size (object_map_ c') = S (size (object_map_ c))
  /\ GetObject 7 c' = (0, c').
Proof.
  apply (GetObject_unmapped_inserts_zero 7
           (mkCanvasContext "trace" 1 100 200 800 480 ∅)).
  - lia.
  - reflexivity.
Defined.

(** C6. Take any Surface Context and any history of calls on it in which
    [SetObject h id], for a handle [h] other than 0, is followed only by
    calls that do not bind [h] again (lookups of any handle, bindings of
    other handles, [MakeCurrent], [Swap]).  Then [GetObject h] returns
    exactly [id], the native id of the most recent [SetObject h]; whatever
    was bound to [h] earlier has been overwritten. *)
Theorem GetObject_returns_latest_binding :
  forall (h id : Z) (before after : list ContextCall) (c : CanvasContext),
    h <> 0 ->
    forallb (fun op => negb (binds h op)) after = true ->
    fst (GetObject h (calls (before ++ CallSetObject h id :: after) c)) = id.
Proof.
  intros h id before after c Hh Hafter.
  rewrite calls_app.
  change (calls (CallSetObject h id :: after) (calls before c))
    with (calls after (SetObject h id (calls before c))).
  rewrite (GetObject_bound h id); [reflexivity|exact Hh|].
  apply calls_keep_binding; [exact Hafter|].
  unfold SetObject. simpl. apply lookup_insert_eq.
Qed.

Lemma GetObject_returns_latest_binding_witness :
  fst (GetObject 1
         (calls ([CallSetObject 1 41; CallGetObject 1]
                 ++ CallSetObject 1 42
                 :: [CallGetObject 5; CallSetObject 2 9; CallMakeCurrent 640 360;
                     CallSwap; CallGetObject 1])
                (mkCanvasContext "trace" 1 100 200 800 480 ∅))) = 42.
Proof.
  apply (GetObject_returns_latest_binding 1 42).
  - lia.
  - reflexivity.
Defined.

(* ===================================================================== *)
(** ** Resizing through MakeCurrent *)
(* ===================================================================== *)

(** C7. [MakeCurrent] called with the dimensions the Surface Context already
    stores only rebinds the context: it issues no [SDL_SetWindowSize] (and no
    [glViewport]) and returns the object unchanged.  Called with explicit
    dimensions (neither is the "unspecified" value -1) of which at least one
    differs from the stored one, it stores the new width and height, resizes
    the native window to them and sets the backend viewport to them. *)
Theorem MakeCurrent_resizes_only_on_change :
  forall (width height : Z) (c : CanvasContext),
    (width = width_ c -> height = height_ c ->
       MakeCurrent width height c
       = ([SDL_GL_MakeCurrent (window_ c) (gl_ c)], c))
    /\ (width <> -1 -> height <> -1 ->
        width <> width_ c \/ height <> height_ c ->
          MakeCurrent width height c
          = ([SDL_GL_MakeCurrent (window_ c) (gl_ c);
              SDL_SetWindowSize (window_ c) width height;
              glViewport 0 0 width height],
             set_size width height c)
          /\ width_ (snd (MakeCurrent width height c)) = width
          /\ height_ (snd (MakeCurrent width height c)) = height).
Proof.
  intros width height c. split.
  - intros -> ->. unfold MakeCurrent.
    rewrite !Z.eqb_refl. simpl.
    destruct (negb (width_ c =? -1) && negb (height_ c =? -1)); reflexivity.
  - intros Hw Hh Hdiff. unfold MakeCurrent.
    apply Z.eqb_neq in Hw, Hh. rewrite Hw, Hh. simpl.
    assert (Hchanged :
              negb (width =? width_ c) || negb (height =? height_ c) = true).
    { apply orb_true_iff.
      destruct Hdiff as [H|H]; apply Z.eqb_neq in H; rewrite H; auto. }
    rewrite Hchanged. simpl. auto.
Qed.

Lemma MakeCurrent_resizes_only_on_change_witness :
  let c := mkCanvasContext "trace" 1 100 200 800 480 ∅ in
  MakeCurrent 800 480 c = ([SDL_GL_MakeCurrent 100 200], c)
  /\ MakeCurrent 640 480 c
     = ([SDL_GL_MakeCurrent 100 200; SDL_SetWindowSize 100 640 480;
         glViewport 0 0 640 480],
        set_size 640 480 c)
  /\ width_ (snd (MakeCurrent 640 480 c)) = 640
  /\ height_ (snd (MakeCurrent 640 480 c)) = 480.
Proof.
  intros c. split.
  - apply (proj1 (MakeCurrent_resizes_only_on_change 800 480 c));
      reflexivity.
  - apply (proj2 (MakeCurrent_resizes_only_on_change 640 480 c)).
    + lia.
    + lia.
    + left. simpl. lia.
Defined.

(* ===================================================================== *)
(** ** The extension bootstrap runs once *)
(* ===================================================================== *)

Lemma InitializeExtensions_again be g :
  extensions_initialized g = true -> InitializeExtensions be g = ([], Ret g).
Proof. intros Hdone. unfold InitializeExtensions. now rewrite Hdone. Qed.

Lemma InitializeExtensions_first be g :
  extensions_initialized g = false ->
  extension_supported be "GL_ARB_instanced_arrays" = true ->
  InitializeExtensions be g = (bootstrap_effects be, Ret (bootstrapped be)).
Proof.
  intros Hfresh Hsupp. unfold InitializeExtensions.
  rewrite Hfresh, Hsupp. reflexivity.
Qed.

Lemma InitializeExtensions_times_done be g n :
  extensions_initialized g = true ->
  InitializeExtensions_times n be g = ([], Ret g).
Proof.
  intros Hdone. induction n as [|n IH]; [reflexivity|].
  simpl. rewrite InitializeExtensions_again by exact Hdone.
  simpl. now rewrite IH.
Qed.

(** C8. The bootstrap does its work at most once per process.  On the
    variables as they are at process start and a backend that supports
    instanced arrays, the first call performs the capability query and
    resolves the three entry points; any call made once the guard flag is
    set performs nothing and returns the variables unchanged, so any number
    of calls in a row has the effects and the outcome of the first alone.
    If the backend reports the capability unsupported on the first call, the
    process exits (with status 1) before any entry point is resolved. *)
Theorem InitializeExtensions_once :
  forall be : Backend,
    (forall g, extensions_initialized g = true ->
               InitializeExtensions be g = ([], Ret g))
    /\ (extension_supported be "GL_ARB_instanced_arrays" = true ->
        InitializeExtensions be globals_at_start
        = (bootstrap_effects be, Ret (bootstrapped be))
        /\ extensions_initialized (bootstrapped be) = true
        /\ forall n, InitializeExtensions_times (S n) be globals_at_start
                     = InitializeExtensions be globals_at_start)
    /\ (extension_supported be "GL_ARB_instanced_arrays" = false ->
        forall g, extensions_initialized g = false ->
          InitializeExtensions be g
          = ([glGetString "GL_VERSION";
              Printf (MsgGlVersion (gl_string be "GL_VERSION"));
              glGetString "GL_EXTENSIONS";
              Printf (MsgGlExtensions (gl_string be "GL_EXTENSIONS"));
              SDL_GL_ExtensionSupported "GL_ARB_instanced_arrays";
              Printf MsgNoInstancedArrays],
             Exit 1)).
Proof.
  intros be. split; [|split].
  - intros g. apply InitializeExtensions_again.
  - intros Hsupp.
    pose proof (InitializeExtensions_first be globals_at_start eq_refl Hsupp)
      as Hfirst.
    split; [exact Hfirst|]. split; [reflexivity|].
    intros n. simpl. rewrite Hfirst. simpl.
    rewrite InitializeExtensions_times_done by reflexivity.
    reflexivity.
  - intros Hunsupp g Hfresh. unfold InitializeExtensions.
    rewrite Hfresh, Hunsupp. reflexivity.
Qed.

Lemma InitializeExtensions_once_witness :
  InitializeExtensions backend_with_instancing
                       (bootstrapped backend_with_instancing)
  = ([], Ret (bootstrapped backend_with_instancing))
  /\ InitializeExtensions_times 3 backend_with_instancing globals_at_start
     = (bootstrap_effects backend_with_instancing,
        Ret (bootstrapped backend_with_instancing))
  /\ snd (InitializeExtensions backend_without_instancing globals_at_start)
     = Exit 1.
Proof.
  split; [|split].
  - apply (proj1 (InitializeExtensions_once backend_with_instancing)).
    reflexivity.
  - destruct (proj1 (proj2 (InitializeExtensions_once backend_with_instancing))
                eq_refl) as (Hfirst & _ & Htimes).
    rewrite (Htimes 2%nat). exact Hfirst.
  - rewrite (proj2 (proj2 (InitializeExtensions_once backend_without_instancing))
               eq_refl globals_at_start eq_refl).
    reflexivity.
Defined.

(* ===================================================================== *)
(** ** The resource blob *)
(* ===================================================================== *)

Lemma size_t_add_small o l :
  0 <= o -> 0 <= l -> o + l <= SIZE_MAX -> size_t_add o l = o + l.
Proof.
  intros Ho Hl Hmax. unfold size_t_add. apply Z.mod_small. lia.
Qed.

(** Reads whose end [offset + length] is representable in [size_t]: data is
    returned exactly when the range lies inside the blob, and the pointer
    then designates the bytes of the blob at that range. *)
Lemma GetBinData_without_overflow (o l : Z) (blob : list byte) (r : Replay) :
  bin_data_ r = Some blob ->
  bin_data_length_ r = Z.of_nat (length blob) ->
  0 <= o -> 0 <= l -> o + l <= SIZE_MAX ->
  (GetBinData o l r <> NULL <-> o + l <= bin_data_length_ r)
  /\ (o + l <= bin_data_length_ r ->
      GetBinData o l r = BinData o
      /\ bytes_at r (GetBinData o l r) l
         = Some (take (Z.to_nat l) (drop (Z.to_nat o) blob))).
Proof.
  intros Hblob Hlen Ho Hl Hmax. unfold GetBinData.
  rewrite size_t_add_small by assumption. rewrite Hblob.
  destruct (Z.gtb_spec (o + l) (bin_data_length_ r)) as [Hout|Hin].
  - split; [split; [congruence|lia]|lia].
  - split; [split; [lia|discriminate]|].
    intros _. split; [reflexivity|].
    unfold bytes_at. rewrite Hblob.
    destruct (Z.leb_spec 0 o); [|lia].
    destruct (Z.leb_spec 0 l); [|lia].
    destruct (Z.leb_spec (o + l) (Z.of_nat (length blob))); [|lia].
    reflexivity.
Qed.

Lemma LoadResources_host_ok :
  LoadResources host_ok (Replay_new "trace" "trace.bin" 1)
  = ([], Ret (true, replay_loaded)).
Proof. vm_compute. reflexivity. Qed.

(** The scenario of the specification: of a 100-byte blob, [read(90, 20)] is
    refused and [read(90, 10)] yields the last ten bytes. *)
Lemma GetBinData_scenario :
  GetBinData 90 20 replay_loaded = NULL
  /\ bytes_at replay_loaded (GetBinData 90 10 replay_loaded) 10
     = Some (repeat xff 10).
Proof. vm_compute. split; reflexivity. Qed.

(** C2, evaluated where the code departs from it.  On the loaded 100-byte
    blob, offset [SIZE_MAX] and length 2 have a sum far beyond the blob, yet
    the [size_t] sum wraps to 1, the bound check passes, and [GetBinData]
    returns a non-null pointer, one that designates no bytes of the blob. *)
Theorem GetBinData_wraps_past_the_check :
  ~ (SIZE_MAX + 2 <= bin_data_length_ replay_loaded)
  /\ size_t_add SIZE_MAX 2 = 1
  /\ GetBinData SIZE_MAX 2 replay_loaded = BinData SIZE_MAX
  /\ GetBinData SIZE_MAX 2 replay_loaded <> NULL
  /\ bytes_at replay_loaded (GetBinData SIZE_MAX 2 replay_loaded) 2 = None.
Proof.
  repeat split.
  - vm_compute. intros H. apply H. reflexivity.
  - discriminate.
Qed.

(** X10. When the resource file cannot be opened, [LoadResources] prints its
    complaint, returns [false] and leaves the orchestrator as it was. *)
Lemma LoadResources_open_failure (host : Host) (r : Replay) (target dir : string) :
  readlink_self_exe host = Some target ->
  cut_after_last_slash (substring 0 (file_path_size - 1) target) = Some dir ->
  (String.length (dir ++ bin_name_ r) < file_path_size)%nat ->
  file_content host (dir ++ bin_name_ r)%string = None ->
  LoadResources host r = ([Printf (MsgUnableToOpen (bin_name_ r))], Ret (false, r)).
Proof.
  intros Hlink Hdir Hfits Hopen. unfold LoadResources.
  rewrite Hlink, Hdir.
  destruct (Nat.leb_spec file_path_size (String.length (dir ++ bin_name_ r)));
    [lia|].
  rewrite Hopen. reflexivity.
Qed.

(** Failing to allocate returns [false] too, but by then the length of the
    file has been stored. *)
Lemma LoadResources_alloc_failure (host : Host) (r : Replay) (target dir : string)
    (content : list byte) :
  readlink_self_exe host = Some target ->
  cut_after_last_slash (substring 0 (file_path_size - 1) target) = Some dir ->
  (String.length (dir ++ bin_name_ r) < file_path_size)%nat ->
  file_content host (dir ++ bin_name_ r)%string = Some content ->
  malloc_succeeds host (Z.of_nat (length content)) = false ->
  LoadResources host r
  = ([Printf MsgUnableToAllocate],
     Ret (false, set_bin_data None
                   (set_bin_data_length (Z.of_nat (length content)) r))).
Proof.
  intros Hlink Hdir Hfits Hopen Halloc. unfold LoadResources.
  rewrite Hlink, Hdir.
  destruct (Nat.leb_spec file_path_size (String.length (dir ++ bin_name_ r)));
    [lia|].
  rewrite Hopen. simpl. rewrite Halloc. reflexivity.
Qed.

(** C4, evaluated where the code departs from it.  When the file opens but
    the allocation fails, [LoadResources] does return [false], but the
    recorded length is no longer its pre-call value 0: it holds the length of
    the file, next to a null blob. *)
Theorem LoadResources_alloc_failure_keeps_length :
  let before := Replay_new "trace" "trace.bin" 1 in
  exists after,
    LoadResources host_out_of_memory before
    = ([Printf MsgUnableToAllocate], Ret (false, after))
    /\ bin_data_ after = None
    /\ bin_data_length_ before = 0
    /\ bin_data_length_ after = 100
    /\ after <> before.
Proof.
  intros before.
  exists (set_bin_data None (set_bin_data_length 100 before)).
  repeat split.
  intros Heq. apply (f_equal bin_data_length_) in Heq. discriminate Heq.
Qed.

Lemma LoadResources_open_failure_example :
  LoadResources host_without_bin (Replay_new "trace" "trace.bin" 1)
  = ([Printf (MsgUnableToOpen "trace.bin")],
     Ret (false, Replay_new "trace" "trace.bin" 1)).
Proof. vm_compute. reflexivity. Qed.

(* ===================================================================== *)
(** ** The frame loop *)
(* ===================================================================== *)

Lemma poll_events_stopped (pending : list SDL_Event) :
  snd (poll_events pending false) = false.
Proof.
  induction pending as [|e rest IH]; [reflexivity|].
  simpl. unfold handle_event.
  destruct ((event_type e =? SDL_WINDOWEVENT_CLOSE) || (event_type e =? SDL_QUIT)).
  - destruct (poll_events rest false). simpl in *. exact IH.
  - destruct (event_type e =? SDL_WINDOWEVENT).
    + destruct (window_event e =? 14);
        destruct (poll_events rest false); simpl in *; exact IH.
    + destruct (poll_events rest false). simpl in *. exact IH.
Qed.

Lemma handle_event_terminating (e : SDL_Event) (running : bool) :
  terminating e -> snd (handle_event e running) = false.
Proof.
  unfold terminating, handle_event.
  intros [Hq|[Hc|[Hw Hsub]]].
  - rewrite Hq. reflexivity.
  - rewrite Hc. reflexivity.
  - rewrite Hw, Hsub. reflexivity.
Qed.

Lemma handle_event_other (e : SDL_Event) (running : bool) :
  ~ terminating e -> snd (handle_event e running) = running.
Proof.
  unfold terminating, handle_event. intros Hnot.
  destruct (Z.eqb_spec (event_type e) SDL_WINDOWEVENT_CLOSE) as [Hc|_];
    [tauto|].
  destruct (Z.eqb_spec (event_type e) SDL_QUIT) as [Hq|_]; [tauto|].
  simpl.
  destruct (Z.eqb_spec (event_type e) SDL_WINDOWEVENT) as [Hw|_];
    [|reflexivity].
  destruct (Z.eqb_spec (window_event e) 14) as [Hsub|_]; [tauto|reflexivity].
Qed.

Lemma poll_events_cons (e : SDL_Event) (rest : list SDL_Event) (running : bool) :
  poll_events (e :: rest) running
  = (fst (handle_event e running)
       ++ fst (poll_events rest (snd (handle_event e running))),
     snd (poll_events rest (snd (handle_event e running)))).
Proof.
  simpl. destruct (handle_event e running) as [l b].
  simpl. destruct (poll_events rest b). reflexivity.
Qed.

Lemma poll_events_terminating (pending : list SDL_Event) :
  Exists terminating pending -> snd (poll_events pending true) = false.
Proof.
  induction 1 as [e rest He|e rest _ IH]; rewrite poll_events_cons; simpl.
  - rewrite handle_event_terminating by exact He. apply poll_events_stopped.
  - destruct (snd (handle_event e true)); [exact IH|apply poll_events_stopped].
Qed.

Lemma poll_events_quiet (pending : list SDL_Event) :
  Forall (fun e => ~ terminating e) pending ->
  snd (poll_events pending true) = true.
Proof.
  induction 1 as [|e rest He _ IH]; [reflexivity|].
  rewrite poll_events_cons. simpl.
  rewrite handle_event_other by exact He. exact IH.
Qed.

(** Polling only prints. *)
Lemma poll_events_prints (pending : list SDL_Event) : forall running,
  Forall (fun e => exists m, e = Printf m) (fst (poll_events pending running)).
Proof.
  induction pending as [|e rest IH]; intros running; [constructor|].
  rewrite poll_events_cons. simpl. apply Forall_app. split; [|apply IH].
  unfold handle_event.
  destruct ((event_type e =? SDL_WINDOWEVENT_CLOSE) || (event_type e =? SDL_QUIT));
    [constructor|].
  destruct (event_type e =? SDL_WINDOWEVENT); repeat constructor; eauto.
Qed.

(** C3. If the events pending when a frame iteration polls include a quit
    event, a window-close event or a window event with the window-close
    sub-event, the loop ends in that iteration and [Run] returns 0: the
    orchestrator is as the iteration found it (no recorded operation has
    run, the cursor has not moved), and the only effects from that point to
    the return of [Run] are the lines printed while polling, so no operation
    is invoked and no surface is presented in that iteration or later. *)
Theorem Run_stops_at_terminating_event :
  forall (fuel : nat) (steps : list StepFunction) (pending : list SDL_Event)
         (later : list (list SDL_Event)) (r : Replay),
    Exists terminating pending ->
    exists printed,
      Run (S fuel) steps (pending :: later) r = Some (printed, Ret (0, r))
      /\ Forall (fun e => exists m, e = Printf m) printed
      /\ invoked printed = []
      /\ Forall (fun e => forall w, e <> SDL_GL_SwapWindow w) printed.
Proof.
  intros fuel steps pending later r Hterm.
  exists (fst (poll_events pending true)).
  pose proof (poll_events_terminating pending Hterm) as Hstop.
  pose proof (poll_events_prints pending true) as Hprints.
  unfold Run. simpl.
  destruct (poll_events pending true) as [polled running].
  simpl in *. subst running. simpl. rewrite app_nil_r.
  split; [reflexivity|]. split; [exact Hprints|]. split.
  - clear -Hprints. induction Hprints as [|e l [m ->] _ IH]; [reflexivity|].
    simpl. exact IH.
  - eapply Forall_impl; [exact Hprints|].
    intros e [m ->] w. discriminate.
Qed.

Lemma Run_stops_at_terminating_event_witness :
  exists printed,
    Run 1 [fun r => Ret r]
        ([mkEvent 0x300 0 0 0; mkEvent SDL_WINDOWEVENT 14 0 0;
          mkEvent 0x400 0 0 0] :: [])
        replay_loaded
    = Some (printed, Ret (0, replay_loaded))
    /\ Forall (fun e => exists m, e = Printf m) printed
    /\ invoked printed = []
    /\ Forall (fun e => forall w, e <> SDL_GL_SwapWindow w) printed.
Proof.
  apply (Run_stops_at_terminating_event 0 [fun r => Ret r]
           [mkEvent 0x300 0 0 0; mkEvent SDL_WINDOWEVENT 14 0 0;
            mkEvent 0x400 0 0 0] [] replay_loaded).
  apply Exists_cons_tl. apply Exists_cons_hd.
  right. right. split; reflexivity.
Defined.

Lemma step_at_middle (done : list StepFunction) (step : StepFunction)
    (rest : list StepFunction) :
  step_at (done ++ step :: rest) (Z.of_nat (length done)) = Some step.
Proof.
  unfold step_at.
  destruct (Z.ltb_spec (Z.of_nat (length done)) 0) as [Hneg|_]; [lia|].
  rewrite Nat2Z.id. now apply list_lookup_middle.
Qed.

Lemma IssueNextStep_at (steps : list StepFunction) (r : Replay)
    (step : StepFunction) :
  step_at steps (step_index_ r) = Some step ->
  IssueNextStep steps r
  = match step (set_step_index (step_index_ r + 1) r) with
    | Ret r2 => ([Printf (MsgStep (step_index_ r)); Invoke (step_index_ r)],
                 Ret (step_index_ r2 <? step_count_ r2, r2))
    | Exit code => ([Printf (MsgStep (step_index_ r)); Invoke (step_index_ r)],
                    Exit code)
    | Fault => ([Printf (MsgStep (step_index_ r)); Invoke (step_index_ r)],
                Fault)
    end.
Proof.
  intros Hat. unfold IssueNextStep. rewrite Hat. simpl.
  destruct (step (set_step_index (step_index_ r + 1) r)); reflexivity.
Qed.

(** The loop of [Run] on a sequence that is not empty, entered with the
    cursor at [length done] and [step_count_] the length of the sequence,
    is the sequence of frames of the operations still to run, and as many
    iterations as there are such operations suffice. *)
Lemma Run_loop_frames : forall (todo done : list StepFunction)
    (events : list (list SDL_Event)) (r : Replay) (fuel : nat),
  todo <> [] ->
  Forall keeps_cursor todo ->
  step_index_ r = Z.of_nat (length done) ->
  step_count_ r = Z.of_nat (length done + length todo) ->
  (length todo <= fuel)%nat ->
  Run_loop fuel (done ++ todo) events r
  = Some (frames todo (step_index_ r) events r).
Proof.
  induction todo as [|step rest IH];
    intros done events r fuel Hne Hkeep Hidx Hcount Hfuel; [congruence|].
  destruct fuel as [|fuel]; [simpl in Hfuel; lia|].
  apply Forall_cons in Hkeep as [Hstep Hrest].
  simpl Run_loop. simpl frames.
  destruct (poll_events (hd [] events) true) as [polled running].
  destruct running; simpl; [|reflexivity].
  rewrite (IssueNextStep_at _ _ step)
    by (rewrite Hidx; apply step_at_middle).
  destruct (step (set_step_index (step_index_ r + 1) r)) as [r1|code|] eqn:Hrun;
    [|reflexivity|reflexivity].
  destruct (Hstep _ _ Hrun) as [Hidx1 Hcount1]. simpl in Hidx1, Hcount1.
  destruct rest as [|step' rest'].
  - destruct (Z.ltb_spec (step_index_ r1) (step_count_ r1)) as [Hlt|_].
    + simpl in Hcount. lia.
    + simpl. now rewrite app_nil_r.
  - destruct (Z.ltb_spec (step_index_ r1) (step_count_ r1)) as [_|Hge].
    + replace (done ++ step :: step' :: rest')
        with ((done ++ [step]) ++ step' :: rest')
        by (rewrite <- app_assoc; reflexivity).
      rewrite (IH (done ++ [step]) (tl events) r1 fuel).
      * rewrite Hidx1.
        destruct (frames (step' :: rest') (step_index_ r + 1) (tl events) r1).
        reflexivity.
      * discriminate.
      * exact Hrest.
      * rewrite Hidx1, Hidx, length_app. simpl length. lia.
      * rewrite Hcount1, Hcount, length_app. simpl length. lia.
      * simpl in Hfuel |- *. lia.
    + simpl in Hcount. lia.
Qed.

Lemma invoked_app (l1 l2 : list Effect) :
  invoked (l1 ++ l2) = invoked l1 ++ invoked l2.
Proof. unfold invoked. apply flat_map_app. Qed.

Lemma beats_app (l1 l2 : list Effect) :
  beats (l1 ++ l2) = beats l1 ++ beats l2.
Proof. unfold beats. apply List.filter_app. Qed.

Lemma invoked_prints (l : list Effect) :
  Forall (fun e => exists m, e = Printf m) l -> invoked l = [].
Proof. induction 1 as [|e l [m ->] _ IH]; [reflexivity|exact IH]. Qed.

Lemma beats_prints (l : list Effect) :
  Forall (fun e => exists m, e = Printf m) l -> beats l = [].
Proof. induction 1 as [|e l [m ->] _ IH]; [reflexivity|exact IH]. Qed.

Lemma invoked_swap_all (r : Replay) : invoked (swap_all r) = [].
Proof.
  unfold swap_all. induction (contexts_ r) as [|c cs IH]; [reflexivity|].
  simpl. exact IH.
Qed.

Lemma beats_swap_all (r : Replay) : beats (swap_all r) = [].
Proof.
  unfold swap_all. induction (contexts_ r) as [|c cs IH]; [reflexivity|].
  simpl. exact IH.
Qed.

(** With well-behaved operations and no terminating event, the frames run
    every operation once, in order, one per pacing delay, and leave the
    cursor past the last of them. *)
Lemma frames_run_in_order : forall (todo : list StepFunction) (i : Z)
    (events : list (list SDL_Event)) (r : Replay),
  Forall keeps_cursor todo ->
  Forall returns todo ->
  Forall (Forall (fun e => ~ terminating e)) events ->
  exists l r',
    frames todo i events r = (l, Ret r')
    /\ invoked l = indices_from i (length todo)
    /\ beats l = beats_from i (length todo)
    /\ (todo <> [] -> step_index_ r' = i + Z.of_nat (length todo)).
Proof.
  induction todo as [|step rest IH]; intros i events r Hkeep Hret Hquiet.
  - exists [], r. repeat split. congruence.
  - apply Forall_cons in Hkeep as [Hstep Hkeep].
    apply Forall_cons in Hret as [Hstepret Hret].
    assert (Hhd : Forall (fun e => ~ terminating e) (hd [] events))
      by (destruct Hquiet; [constructor|assumption]).
    assert (Htl : Forall (Forall (fun e => ~ terminating e)) (tl events))
      by (destruct Hquiet; [constructor|assumption]).
    pose proof (poll_events_quiet _ Hhd) as Hrunning.
    pose proof (poll_events_prints (hd [] events) true) as Hprints.
    simpl frames.
    destruct (poll_events (hd [] events) true) as [polled running].
    simpl in Hrunning, Hprints. subst running. simpl.
    destruct (Hstepret (set_step_index (i + 1) r)) as [r1 Hrun].
    rewrite Hrun.
    destruct (Hstep _ _ Hrun) as [Hidx1 _]. simpl in Hidx1.
    destruct (IH (i + 1) (tl events) r1 Hkeep Hret Htl)
      as (l & r' & Hframes & Hinv & Hbeats & Hidx).
    rewrite Hframes. exists ((polled ++
      Printf (MsgStep i) :: Invoke i :: swap_all r1 ++ [SDL_Delay 16]) ++ l), r'.
    split; [reflexivity|]. split; [|split].
    + rewrite !invoked_app, invoked_prints by exact Hprints.
      change (Printf (MsgStep i) :: Invoke i :: swap_all r1 ++ [SDL_Delay 16])
        with ([Printf (MsgStep i); Invoke i] ++ swap_all r1 ++ [SDL_Delay 16]).
      rewrite !invoked_app, invoked_swap_all, Hinv. reflexivity.
    + rewrite !beats_app, beats_prints by exact Hprints.
      change (Printf (MsgStep i) :: Invoke i :: swap_all r1 ++ [SDL_Delay 16])
        with ([Printf (MsgStep i); Invoke i] ++ swap_all r1 ++ [SDL_Delay 16]).
      rewrite !beats_app, beats_swap_all, Hbeats. reflexivity.
    + intros _. destruct rest as [|step' rest'].
      * simpl in Hframes. injection Hframes as _ <-. simpl. lia.
      * rewrite Hidx by discriminate. simpl length. lia.
Qed.

(** X13. A run over a sequence of [N >= 1] well-behaved operations that observes
    no terminating event: [Run] returns 0 after invoking the operations
    [0, 1, ..., N-1] in this order, each in a frame of its own, and the
    cursor is [N]. *)
Lemma Run_replays_every_step_in_order (steps : list StepFunction)
    (events : list (list SDL_Event)) (r : Replay) (fuel : nat) :
  steps <> [] ->
  Forall keeps_cursor steps ->
  Forall returns steps ->
  Forall (Forall (fun e => ~ terminating e)) events ->
  step_index_ r = 0 ->
  step_count_ r = Z.of_nat (length steps) ->
  (length steps <= fuel)%nat ->
  exists l r',
    Run fuel steps events r = Some (l, Ret (0, r'))
    /\ invoked l = indices_from 0 (length steps)
    /\ beats l = beats_from 0 (length steps)
    /\ step_index_ r' = Z.of_nat (length steps).
Proof.
  intros Hne Hkeep Hret Hquiet Hidx Hcount Hfuel.
  destruct (frames_run_in_order steps 0 events r Hkeep Hret Hquiet)
    as (l & r' & Hframes & Hinv & Hbeats & Hcursor).
  exists l, r'. unfold Run.
  pose proof (Run_loop_frames steps [] events r fuel Hne Hkeep Hidx Hcount Hfuel)
    as Hloop.
  change ([] ++ steps) with steps in Hloop.
  rewrite Hloop, Hidx, Hframes. simpl. rewrite app_nil_r.
  repeat split; try assumption. now apply Hcursor.
Qed.

Lemma step_bind_keeps_cursor (id : Z) : keeps_cursor (step_bind id).
Proof. intros r r' [= <-]. split; reflexivity. Qed.

Lemma step_bind_returns (id : Z) : returns (step_bind id).
Proof. intros r. eexists. reflexivity. Qed.

Lemma Run_replays_every_step_in_order_example :
  exists l r',
    Run 3 [step_bind 7; step_bind 8; step_bind 9]
        [[mkEvent 0x300 0 0 0]; []; [mkEvent SDL_WINDOWEVENT 5 640 360]]
        replay_two_windows
    = Some (l, Ret (0, r'))
    /\ invoked l = [0; 1; 2]
    /\ beats l = [Invoke 0; SDL_Delay 16; Invoke 1; SDL_Delay 16;
                  Invoke 2; SDL_Delay 16]
    /\ step_index_ r' = 3.
Proof.
  apply (Run_replays_every_step_in_order
           [step_bind 7; step_bind 8; step_bind 9]
           [[mkEvent 0x300 0 0 0]; []; [mkEvent SDL_WINDOWEVENT 5 640 360]]
           replay_two_windows 3).
  - discriminate.
  - repeat (apply List.Forall_cons; [apply step_bind_keeps_cursor|]).
    apply List.Forall_nil.
  - repeat (apply List.Forall_cons; [apply step_bind_returns|]).
    apply List.Forall_nil.
  - repeat (apply List.Forall_cons || apply List.Forall_nil);
      unfold terminating; simpl; intros [H|[H|[_ H]]]; discriminate H.
  - reflexivity.
  - reflexivity.
  - simpl. lia.
Defined.

(** A single frame spelled out: the events are polled, the operation runs,
    the two surfaces are presented in creation order, then comes the pause. *)
Lemma Run_one_frame_example :
  fst <$> Run 1 [step_bind 7]
              [[mkEvent 0x300 0 0 0]]
              (mkReplay "trace" "trace.bin" 1 0 (Some blob_100) 100
                        (contexts_ replay_two_windows)
                        (context_map_ replay_two_windows))
  = Some [Printf (MsgSdlEvent 0x300); Printf (MsgStep 0); Invoke 0;
          SDL_GL_MakeCurrent 100 200; SDL_GL_SwapWindow 100;
          SDL_GL_MakeCurrent 101 201; SDL_GL_SwapWindow 101;
          SDL_Delay 16].
Proof. vm_compute. reflexivity. Qed.

(** C1, evaluated where the code departs from it.  For the empty sequence
    (N = 0) and no event at all, the loop does not finish with zero
    invocations and the cursor at 0: its first iteration calls
    [IssueNextStep], which prints the step line and reads [steps_[0]], an
    element the array does not have.  This holds from the freshly
    constructed orchestrator and through [main] after a successful load. *)
Theorem Run_empty_sequence_reads_past_the_array :
  forall fuel : nat,
    step_at [] 0 = None
    /\ Run (S fuel) [] [] (Replay_new "trace" "trace.bin" 0)
       = Some ([Printf (MsgStep 0)], Fault)
    /\ Run (S fuel) [] [] (Replay_new "trace" "trace.bin" 0)
       <> Some ([], Ret (0, Replay_new "trace" "trace.bin" 0))
    /\ main (S fuel) host_ok "trace" "trace.bin" [] 0 []
       = Some ([SDL_Init; SDL_GetDesktopDisplayMode; Printf (MsgStep 0)], Fault).
Proof.
  intros fuel. split; [reflexivity|]. split; [reflexivity|].
  split; [discriminate|]. reflexivity.
Qed.

(* ===================================================================== *)
(** ** The exit status *)
(* ===================================================================== *)

(** A [Run] that returns, returns 0. *)
Lemma Run_returns_0 (fuel : nat) (steps : list StepFunction)
    (events : list (list SDL_Event)) (r r' : Replay) (l : list Effect) (code : Z) :
  Run fuel steps events r = Some (l, Ret (code, r')) -> code = 0.
Proof.
  unfold Run. destruct (Run_loop fuel steps events r) as [[l0 [r0|c|]]|];
    simpl; intros H; try discriminate H.
  now injection H as _ <- _.
Qed.

(** When the blob is loaded and the loop ends (on a terminating event or
    after the last operation), the exit status is 0. *)
Lemma main_exit_status_0 (fuel : nat) (host : Host) (trace_name bin_name : string)
    (steps : list StepFunction) (step_count : Z) (events : list (list SDL_Event))
    (loaded ran : list Effect) (r r' : Replay) (code : Z) :
  LoadResources host (Replay_new trace_name bin_name step_count)
  = (loaded, Ret (true, r)) ->
  Run fuel steps events r = Some (ran, Ret (code, r')) ->
  exists l, main fuel host trace_name bin_name steps step_count events
            = Some (l, Ret 0).
Proof.
  intros Hload Hrun. unfold main. rewrite Hload, Hrun.
  rewrite (Run_returns_0 _ _ _ _ _ _ _ Hrun). eexists. reflexivity.
Qed.

(** When [LoadResources] reports failure, the exit status is 1 and the loop
    is never entered. *)
Lemma main_exit_status_1 (fuel : nat) (host : Host) (trace_name bin_name : string)
    (steps : list StepFunction) (step_count : Z) (events : list (list SDL_Event))
    (loaded : list Effect) (r : Replay) :
  LoadResources host (Replay_new trace_name bin_name step_count)
  = (loaded, Ret (false, r)) ->
  main fuel host trace_name bin_name steps step_count events
  = Some (Replay_new_calls ++ loaded ++ Replay_delete_calls r, Ret 1).
Proof. intros Hload. unfold main. now rewrite Hload. Qed.

(** When the path of the executable cannot be determined, [LoadResources]
    prints its complaint and returns [true]. *)
Lemma LoadResources_cant_find_myself (host : Host) (r : Replay) :
  readlink_self_exe host = None ->
  LoadResources host r = ([Printf MsgCantFindMyself], Ret (true, r)).
Proof. intros Hlink. unfold LoadResources. now rewrite Hlink. Qed.

(** C9, evaluated where the code departs from it.  When [readlink] fails, no
    blob is loaded ([bin_data_] stays null), yet [main] goes on into the
    frame loop and, for a one-operation trace and no event, the process
    ends with exit status 0, not 1. *)
Theorem main_exit_status_when_readlink_fails :
  main 1 host_without_proc "trace" "trace.bin" [step_bind 7] 1 []
  = Some ([SDL_Init; SDL_GetDesktopDisplayMode; Printf MsgCantFindMyself;
           Printf (MsgStep 0); Invoke 0; SDL_Delay 16; SDL_Quit],
          Ret 0)
  /\ (exit_status <$> (snd <$> main 1 host_without_proc "trace" "trace.bin"
                                   [step_bind 7] 1 []))
     = Some (Some 0)
  /\ snd (LoadResources host_without_proc (Replay_new "trace" "trace.bin" 1))
     = Ret (true, Replay_new "trace" "trace.bin" 1)
  /\ bin_data_ (Replay_new "trace" "trace.bin" 1) = None.
Proof. repeat split. Qed.

Lemma main_exit_status_examples :
  (snd <$> main 1 host_without_bin "trace" "trace.bin" [step_bind 7] 1 [])
  = Some (Ret 1)
  /\ (snd <$> main 1 host_out_of_memory "trace" "trace.bin" [step_bind 7] 1 [])
     = Some (Ret 1)
  /\ (snd <$> main 1 host_ok "trace" "trace.bin" [step_bind 7] 1 [])
     = Some (Ret 0)
  /\ (snd <$> main 1 host_ok "trace" "trace.bin" [step_bind 7] 1
                   [[mkEvent SDL_QUIT 0 0 0]])
     = Some (Ret 0).
Proof. vm_compute. repeat split. Qed.

(* ===================================================================== *)
(** ** More on the handle table and on MakeCurrent *)
(* ===================================================================== *)

Lemma GetObject_value (h : Z) (c : CanvasContext) :
  fst (GetObject h c)
  = if h =? 0 then 0 else default 0 (object_map_ c !! h).
Proof.
  unfold GetObject. destruct (h =? 0); [reflexivity|].
  destruct (object_map_ c !! h); reflexivity.
Qed.

Lemma GetObject_same_table (h : Z) (c1 c2 : CanvasContext) :
  object_map_ c1 = object_map_ c2 -> fst (GetObject h c1) = fst (GetObject h c2).
Proof. intros Heq. rewrite !GetObject_value. now rewrite Heq. Qed.

Lemma GetObject_after_GetObject (h h' : Z) (c : CanvasContext) :
  fst (GetObject h' (snd (GetObject h c))) = fst (GetObject h' c).
Proof.
  rewrite !GetObject_value.
  destruct (Z.eqb_spec h' 0) as [_|Hh']; [reflexivity|].
  unfold GetObject. destruct (Z.eqb_spec h 0) as [_|Hh]; [reflexivity|].
  destruct (object_map_ c !! h) as [id|] eqn:Hlook; [reflexivity|].
  simpl. destruct (Z.eq_dec h h') as [->|Hne].
  - now rewrite lookup_insert_eq, Hlook.
  - now rewrite lookup_insert_ne.
Qed.

(** X2. The entry that a lookup of an unmapped handle inserts cannot be observed
    through [GetObject]: after [GetObject h], every handle resolves to what
    it resolved to before, and a second [GetObject h] changes nothing. *)
Theorem GetObject_insertion_is_unobservable :
  forall (h h' : Z) (c : CanvasContext),
    fst (GetObject h' (snd (GetObject h c))) = fst (GetObject h' c)
    /\ snd (GetObject h (snd (GetObject h c))) = snd (GetObject h c).
Proof.
  intros h h' c. split; [apply GetObject_after_GetObject|].
  unfold GetObject. destruct (Z.eqb_spec h 0) as [->|Hh]; [reflexivity|].
  destruct (object_map_ c !! h) as [id|] eqn:Hlook; simpl.
  - destruct (Z.eqb_spec h 0); [congruence|]. now rewrite Hlook.
  - destruct (Z.eqb_spec h 0); [congruence|]. now rewrite lookup_insert_eq.
Qed.

(** Binding one handle leaves the resolution of every other handle alone. *)
Lemma SetObject_other (h h' id : Z) (c : CanvasContext) :
  h <> h' -> fst (GetObject h (SetObject h' id c)) = fst (GetObject h c).
Proof.
  intros Hne. rewrite !GetObject_value. unfold SetObject. simpl.
  now rewrite lookup_insert_ne.
Qed.

Lemma SetObject_same (h id : Z) (c : CanvasContext) :
  h <> 0 -> fst (GetObject h (SetObject h id c)) = id.
Proof.
  intros Hh. rewrite GetObject_value. unfold SetObject. simpl.
  destruct (Z.eqb_spec h 0); [congruence|]. now rewrite lookup_insert_eq.
Qed.

(** X1. After any history of calls on a Surface Context, a non-zero handle
    resolves to the id of the last [SetObject] for it in the history, and to
    what it resolved to before the history if there is no such call. *)
Theorem GetObject_after_history :
  forall (h : Z) (ops : list ContextCall) (c : CanvasContext),
    h <> 0 ->
    fst (GetObject h (calls ops c))
    = default (fst (GetObject h c)) (last_binding h ops).
Proof.
  intros h ops. induction ops as [|op ops IH]; intros c Hh; [reflexivity|].
  change (calls (op :: ops) c) with (calls ops (call op c)).
  rewrite IH by exact Hh. simpl.
  destruct (last_binding h ops) as [id|]; [reflexivity|]. simpl.
  destruct op as [w h'| |h'|h' id]; simpl.
  - apply GetObject_same_table, object_map_MakeCurrent.
  - reflexivity.
  - apply GetObject_after_GetObject.
  - destruct (Z.eqb_spec h' h) as [->|Hne]; simpl.
    + now apply SetObject_same.
    + apply SetObject_other. congruence.
Qed.

Lemma GetObject_after_history_witness :
  fst (GetObject 4
         (calls [CallSetObject 4 10; CallGetObject 9; CallSetObject 4 11;
                 CallMakeCurrent 640 360; CallSetObject 5 12]
                (mkCanvasContext "trace" 1 100 200 800 480 ∅)))
  = default (fst (GetObject 4 (mkCanvasContext "trace" 1 100 200 800 480 ∅)))
            (Some 11).
Proof.
  apply (GetObject_after_history 4
           [CallSetObject 4 10; CallGetObject 9; CallSetObject 4 11;
            CallMakeCurrent 640 360; CallSetObject 5 12]).
  lia.
Defined.

(** X3. [MakeCurrent] called with a width or a height of -1 (the default
    arguments, or only one dimension given) never resizes, whatever the other
    dimension is. *)
Theorem MakeCurrent_unspecified_never_resizes :
  forall (width height : Z) (c : CanvasContext),
    width = -1 \/ height = -1 ->
    MakeCurrent width height c = ([SDL_GL_MakeCurrent (window_ c) (gl_ c)], c).
Proof.
  intros width height c Hdefault. unfold MakeCurrent.
  destruct (Z.eqb_spec width (-1)) as [_|Hw]; [reflexivity|].
  destruct (Z.eqb_spec height (-1)) as [_|Hh]; [reflexivity|].
  lia.
Qed.

Lemma MakeCurrent_unspecified_never_resizes_witness :
  MakeCurrent 640 (-1) (mkCanvasContext "trace" 1 100 200 800 480 ∅)
  = ([SDL_GL_MakeCurrent 100 200], mkCanvasContext "trace" 1 100 200 800 480 ∅).
Proof.
  apply (MakeCurrent_unspecified_never_resizes 640 (-1)
           (mkCanvasContext "trace" 1 100 200 800 480 ∅)).
  right. reflexivity.
Defined.

Lemma MakeCurrent_cases (width height : Z) (c : CanvasContext) :
  MakeCurrent width height c = ([SDL_GL_MakeCurrent (window_ c) (gl_ c)], c)
  \/ MakeCurrent width height c
     = ([SDL_GL_MakeCurrent (window_ c) (gl_ c);
         SDL_SetWindowSize (window_ c) width height;
         glViewport 0 0 width height],
        set_size width height c).
Proof.
  unfold MakeCurrent.
  destruct (negb (width =? -1) && negb (height =? -1)); [|now left].
  destruct (negb (width =? width_ c) || negb (height =? height_ c));
    [now right|now left].
Qed.

(** X4. Repeating a [MakeCurrent] with the same arguments only rebinds the
    context: the second call issues no resize and no viewport call and
    leaves the object as the first call left it; and no [MakeCurrent] ever
    changes the window, the GL context or the handle table. *)
Theorem MakeCurrent_twice :
  forall (width height : Z) (c : CanvasContext),
    let c1 := snd (MakeCurrent width height c) in
    MakeCurrent width height c1 = ([SDL_GL_MakeCurrent (window_ c) (gl_ c)], c1)
    /\ window_ c1 = window_ c /\ gl_ c1 = gl_ c /\ handle_ c1 = handle_ c
    /\ object_map_ c1 = object_map_ c.
Proof.
  intros width height c.
  destruct (MakeCurrent_cases width height c) as [Hsame|Hresized].
  - simpl. rewrite Hsame. simpl. rewrite Hsame. auto.
  - simpl. rewrite Hresized. simpl. split; [|auto].
    unfold MakeCurrent. simpl. rewrite !Z.eqb_refl. simpl.
    now destruct (negb (width =? -1) && negb (height =? -1)).
Qed.

(* ===================================================================== *)
(** ** More on the resource blob *)
(* ===================================================================== *)

(** X5. A read of a loaded blob whose end [offset + length] is representable in
    [size_t] returns data exactly when the range lies inside the blob, and
    the pointer returned then designates the bytes of the blob at that
    range. *)
Theorem GetBinData_checks_the_range :
  forall (offset length : Z) (blob : list byte) (r : Replay),
    bin_data_ r = Some blob ->
    bin_data_length_ r = Z.of_nat (List.length blob) ->
    0 <= offset -> 0 <= length -> offset + length <= SIZE_MAX ->
    (GetBinData offset length r <> NULL <-> offset + length <= bin_data_length_ r)
    /\ (offset + length <= bin_data_length_ r ->
        GetBinData offset length r = BinData offset
        /\ bytes_at r (GetBinData offset length r) length
           = Some (take (Z.to_nat length) (drop (Z.to_nat offset) blob))).
Proof. intros. now apply GetBinData_without_overflow. Qed.

Lemma GetBinData_checks_the_range_witness :
  (GetBinData 90 20 replay_loaded <> NULL
   <-> 90 + 20 <= bin_data_length_ replay_loaded)
  /\ (90 + 20 <= bin_data_length_ replay_loaded ->
      GetBinData 90 20 replay_loaded = BinData 90
      /\ bytes_at replay_loaded (GetBinData 90 20 replay_loaded) 20
         = Some (take (Z.to_nat 20) (drop (Z.to_nat 90) blob_100))).
Proof.
  apply (GetBinData_checks_the_range 90 20 blob_100 replay_loaded).
  - reflexivity.
  - reflexivity.
  - lia.
  - lia.
  - vm_compute. discriminate.
Defined.

(** X6. Before a blob is loaded, every read whose end is representable in
    [size_t] is refused, the empty read at offset 0 included. *)
Theorem GetBinData_before_load :
  forall (trace_name bin_name : string) (step_count offset length : Z),
    0 <= offset -> 0 <= length -> offset + length <= SIZE_MAX ->
    GetBinData offset length (Replay_new trace_name bin_name step_count) = NULL.
Proof.
  intros trace_name bin_name step_count offset length Ho Hl Hmax.
  unfold GetBinData. rewrite size_t_add_small by assumption. simpl.
  destruct (Z.gtb_spec (offset + length) 0) as [_|Hzero]; [reflexivity|].
  destruct (Z.eqb_spec offset 0) as [_|Hne]; [reflexivity|lia].
Qed.

Lemma GetBinData_before_load_witness :
  GetBinData 0 0 (Replay_new "trace" "trace.bin" 1) = NULL.
Proof.
  apply (GetBinData_before_load "trace" "trace.bin" 1 0 0); try lia.
  vm_compute. discriminate.
Defined.

(** X7. Reads of a loaded blob tile it: two reads of adjacent ranges inside the
    blob yield, one after the other, exactly the bytes of the read of the
    joined range, each with the length that was asked for. *)
Theorem GetBinData_adjacent_reads :
  forall (o l1 l2 : Z) (blob : list byte) (r : Replay),
    bin_data_ r = Some blob ->
    bin_data_length_ r = Z.of_nat (length blob) ->
    bin_data_length_ r <= SIZE_MAX ->
    0 <= o -> 0 <= l1 -> 0 <= l2 ->
    o + l1 + l2 <= bin_data_length_ r ->
    exists b1 b2,
      bytes_at r (GetBinData o l1 r) l1 = Some b1
      /\ bytes_at r (GetBinData (o + l1) l2 r) l2 = Some b2
      /\ bytes_at r (GetBinData o (l1 + l2) r) (l1 + l2) = Some (b1 ++ b2)
      /\ Z.of_nat (length b1) = l1
      /\ Z.of_nat (length b2) = l2.
Proof.
  intros o l1 l2 blob r Hblob Hlen Hmax Ho Hl1 Hl2 Hin.
  exists (take (Z.to_nat l1) (drop (Z.to_nat o) blob)),
         (take (Z.to_nat l2) (drop (Z.to_nat (o + l1)) blob)).
  destruct (GetBinData_without_overflow o l1 blob r Hblob Hlen)
    as [_ H1]; try lia.
  destruct (GetBinData_without_overflow (o + l1) l2 blob r Hblob Hlen)
    as [_ H2]; try lia.
  destruct (GetBinData_without_overflow o (l1 + l2) blob r Hblob Hlen)
    as [_ H12]; try lia.
  split; [apply H1; lia|]. split; [apply H2; lia|].
  split; [|split].
  - destruct H12 as [_ ->]; [lia|]. f_equal.
    rewrite !Z2Nat.inj_add by lia.
    rewrite <- drop_drop. symmetry. apply take_take_drop.
  - rewrite length_take, length_drop. lia.
  - rewrite length_take, length_drop. lia.
Qed.

Lemma GetBinData_adjacent_reads_witness :
  exists b1 b2,
    bytes_at replay_loaded (GetBinData 85 5 replay_loaded) 5 = Some b1
    /\ bytes_at replay_loaded (GetBinData (85 + 5) 10 replay_loaded) 10 = Some b2
    /\ bytes_at replay_loaded (GetBinData 85 (5 + 10) replay_loaded) (5 + 10)
       = Some (b1 ++ b2)
    /\ Z.of_nat (length b1) = 5
    /\ Z.of_nat (length b2) = 10.
Proof.
  apply (GetBinData_adjacent_reads 85 5 10 blob_100 replay_loaded);
    try reflexivity; try lia; vm_compute; discriminate.
Defined.


(** X9. A load that succeeds stores the whole file and its length and touches
    nothing else; reading the full range back then yields the content of the
    file. *)
Theorem LoadResources_then_read :
  forall (host : Host) (r : Replay) (target dir : string) (content : list byte),
    readlink_self_exe host = Some target ->
    cut_after_last_slash (substring 0 (file_path_size - 1) target) = Some dir ->
    (String.length (dir ++ bin_name_ r) < file_path_size)%nat ->
    file_content host (dir ++ bin_name_ r)%string = Some content ->
    malloc_succeeds host (Z.of_nat (length content)) = true ->
    Z.of_nat (length content) <= SIZE_MAX ->
    let r' := set_bin_data (Some content)
                (set_bin_data_length (Z.of_nat (length content)) r) in
    LoadResources host r = ([], Ret (true, r'))
    /\ bytes_at r' (GetBinData 0 (Z.of_nat (length content)) r')
                (Z.of_nat (length content))
       = Some content.
Proof.
  intros host r target dir content Hlink Hdir Hfits Hopen Halloc Hmax r'.
  split.
  - unfold LoadResources. rewrite Hlink, Hdir.
    destruct (Nat.leb_spec file_path_size (String.length (dir ++ bin_name_ r)));
      [lia|].
    rewrite Hopen. simpl. rewrite Halloc. reflexivity.
  - destruct (GetBinData_without_overflow 0 (Z.of_nat (length content))
                content r' eq_refl eq_refl) as [_ Hread]; try lia.
    destruct Hread as [_ ->]; [simpl; lia|].
    rewrite Nat2Z.id. simpl. now rewrite firstn_all.
Qed.

Lemma LoadResources_then_read_witness :
  let r' := set_bin_data (Some blob_100)
              (set_bin_data_length (Z.of_nat (length blob_100))
                 (Replay_new "trace" "trace.bin" 1)) in
  LoadResources host_ok (Replay_new "trace" "trace.bin" 1) = ([], Ret (true, r'))
  /\ bytes_at r' (GetBinData 0 (Z.of_nat (length blob_100)) r')
              (Z.of_nat (length blob_100))
     = Some blob_100.
Proof.
  apply (LoadResources_then_read host_ok (Replay_new "trace" "trace.bin" 1)
           "/opt/replay/trace" "/opt/replay/" blob_100);
    try reflexivity.
  - vm_compute. lia.
  - vm_compute. discriminate.
Defined.

Lemma LoadResources_open_failure_witness :
  LoadResources host_without_bin (Replay_new "trace" "trace.bin" 1)
  = ([Printf (MsgUnableToOpen (bin_name_ (Replay_new "trace" "trace.bin" 1)))],
     Ret (false, Replay_new "trace" "trace.bin" 1)).
Proof.
  apply (LoadResources_open_failure host_without_bin
           (Replay_new "trace" "trace.bin" 1)
           "/opt/replay/trace" "/opt/replay/");
    try reflexivity.
  vm_compute. lia.
Defined.

Lemma LoadResources_frame :
  forall (host : Host) (r r' : Replay) (l : list Effect) (ok : bool),
    LoadResources host r = (l, Ret (ok, r')) ->
    trace_name_ r' = trace_name_ r /\ bin_name_ r' = bin_name_ r
    /\ step_count_ r' = step_count_ r /\ step_index_ r' = step_index_ r
    /\ contexts_ r' = contexts_ r /\ context_map_ r' = context_map_ r
    /\ Forall (fun e => exists m, e = Printf m) l.
Proof.
  intros host r r' l ok. unfold LoadResources.
  destruct (readlink_self_exe host) as [target|].
  - destruct (cut_after_last_slash _) as [dir|]; [|discriminate].
    destruct (_ <=? _)%nat; [discriminate|].
    destruct (file_content host _) as [content|].
    + simpl. destruct (malloc_succeeds host _); intros [= <- <- <-]; simpl;
        repeat split; repeat constructor; eauto.
    + intros [= <- <- <-]. repeat split; repeat constructor; eauto.
  - intros [= <- <- <-]. repeat split; repeat constructor; eauto.
Qed.



(* ===================================================================== *)
(** ** More on the frame loop *)
(* ===================================================================== *)

Lemma terminating_dec (e : SDL_Event) : {terminating e} + {~ terminating e}.
Proof.
  unfold terminating.
  destruct (Z.eq_dec (event_type e) SDL_QUIT); [left; tauto|].
  destruct (Z.eq_dec (event_type e) SDL_WINDOWEVENT_CLOSE); [left; tauto|].
  destruct (Z.eq_dec (event_type e) SDL_WINDOWEVENT); [|right; tauto].
  destruct (Z.eq_dec (window_event e) 14); [left; tauto|right; tauto].
Qed.

(** X12. Polling clears [running] exactly when one of the pending events is a
    quit event, has the window-close value as its type, or is a window event
    with sub-event 14; no other event, whatever its type and payload, stops
    the loop. *)
Theorem poll_events_stops_iff :
  forall pending : list SDL_Event,
    snd (poll_events pending true) = false <-> Exists terminating pending.
Proof.
  intros pending. split; [|apply poll_events_terminating].
  induction pending as [|e rest IH]; [discriminate|].
  rewrite poll_events_cons. simpl.
  destruct (terminating_dec e) as [He|He]; [intros _; now left|].
  rewrite handle_event_other by exact He. intros Hrest. right. now apply IH.
Qed.

(** When the events of frame [k] (counting from 0) are the first to contain
    a terminating one and fewer than [k + 1] operations would otherwise be
    left out, the frames before it run the operations [i, ..., i + k - 1] in
    order and the run ends there. *)
Lemma frames_interrupted : forall (quiet : list (list SDL_Event))
    (todo : list StepFunction) (i : Z) (stop : list SDL_Event)
    (later : list (list SDL_Event)) (r : Replay),
  Forall keeps_cursor todo ->
  Forall returns todo ->
  Forall (Forall (fun e => ~ terminating e)) quiet ->
  Exists terminating stop ->
  (length quiet < length todo)%nat ->
  exists l r',
    frames todo i (quiet ++ stop :: later) r = (l, Ret r')
    /\ invoked l = indices_from i (length quiet)
    /\ beats l = beats_from i (length quiet)
    /\ (quiet = [] -> r' = r)
    /\ (quiet <> [] -> step_index_ r' = i + Z.of_nat (length quiet)).
Proof.
  induction quiet as [|q qs IH];
    intros todo i stop later r Hkeep Hret Hquiet Hstop Hlen;
    (destruct todo as [|step rest]; [simpl in Hlen; lia|]).
  - pose proof (poll_events_terminating stop Hstop) as Hstopped.
    pose proof (poll_events_prints stop true) as Hprints.
    simpl. destruct (poll_events stop true) as [polled running].
    simpl in Hstopped, Hprints. subst running. simpl.
    exists polled, r. split; [reflexivity|].
    split; [now apply invoked_prints|]. split; [now apply beats_prints|].
    split; [reflexivity|congruence].
  - apply Forall_cons in Hkeep as [Hstep Hkeep].
    apply Forall_cons in Hret as [Hstepret Hret].
    apply Forall_cons in Hquiet as [Hq Hqs].
    pose proof (poll_events_quiet q Hq) as Hrunning.
    pose proof (poll_events_prints q true) as Hprints.
    simpl frames. destruct (poll_events q true) as [polled running].
    simpl in Hrunning, Hprints. subst running. simpl.
    destruct (Hstepret (set_step_index (i + 1) r)) as [r1 Hrun].
    rewrite Hrun. destruct (Hstep _ _ Hrun) as [Hidx1 _]. simpl in Hidx1.
    destruct (IH rest (i + 1) stop later r1 Hkeep Hret Hqs Hstop)
      as (l & r' & Hframes & Hinv & Hbeats & Hnil & Hcons);
      [simpl in Hlen; lia|].
    rewrite Hframes.
    exists ((polled ++
      Printf (MsgStep i) :: Invoke i :: swap_all r1 ++ [SDL_Delay 16]) ++ l), r'.
    split; [reflexivity|]. split; [|split; [|split]].
    + rewrite !invoked_app, invoked_prints by exact Hprints.
      change (Printf (MsgStep i) :: Invoke i :: swap_all r1 ++ [SDL_Delay 16])
        with ([Printf (MsgStep i); Invoke i] ++ swap_all r1 ++ [SDL_Delay 16]).
      rewrite !invoked_app, invoked_swap_all, Hinv. reflexivity.
    + rewrite !beats_app, beats_prints by exact Hprints.
      change (Printf (MsgStep i) :: Invoke i :: swap_all r1 ++ [SDL_Delay 16])
        with ([Printf (MsgStep i); Invoke i] ++ swap_all r1 ++ [SDL_Delay 16]).
      rewrite !beats_app, beats_swap_all, Hbeats. reflexivity.
    + discriminate.
    + intros _. destruct qs as [|q' qs'].
      * rewrite (Hnil eq_refl). simpl. lia.
      * rewrite Hcons by discriminate. simpl length. lia.
Qed.

(** X14. A run that meets its first terminating event while polling for frame
    [k], with more than [k] well-behaved operations recorded: [Run] returns 0
    after invoking exactly the operations [0, ..., k - 1], in order and one
    per frame, and the cursor is [k]; the operations from [k] on never run. *)
Theorem Run_interrupted_at_frame :
  forall (steps : list StepFunction) (quiet : list (list SDL_Event))
         (stop : list SDL_Event) (later : list (list SDL_Event))
         (r : Replay) (fuel : nat),
    Forall keeps_cursor steps ->
    Forall returns steps ->
    Forall (Forall (fun e => ~ terminating e)) quiet ->
    Exists terminating stop ->
    (length quiet < length steps)%nat ->
    step_index_ r = 0 ->
    step_count_ r = Z.of_nat (length steps) ->
    (length steps <= fuel)%nat ->
    exists l r',
      Run fuel steps (quiet ++ stop :: later) r = Some (l, Ret (0, r'))
      /\ invoked l = indices_from 0 (length quiet)
      /\ beats l = beats_from 0 (length quiet)
      /\ step_index_ r' = Z.of_nat (length quiet).
Proof.
  intros steps quiet stop later r fuel Hkeep Hret Hquiet Hstop Hlen
         Hidx Hcount Hfuel.
  assert (Hne : steps <> []) by (destruct steps; [simpl in Hlen; lia|discriminate]).
  destruct (frames_interrupted quiet steps 0 stop later r
              Hkeep Hret Hquiet Hstop Hlen)
    as (l & r' & Hframes & Hinv & Hbeats & Hnil & Hcons).
  pose proof (Run_loop_frames steps [] (quiet ++ stop :: later) r fuel
                Hne Hkeep Hidx Hcount Hfuel) as Hloop.
  change ([] ++ steps) with steps in Hloop.
  exists l, r'. unfold Run. rewrite Hloop, Hidx, Hframes. simpl.
  rewrite app_nil_r. repeat split; try assumption.
  destruct quiet as [|q qs].
  - rewrite (Hnil eq_refl). exact Hidx.
  - rewrite Hcons by discriminate. lia.
Qed.

Lemma Run_interrupted_at_frame_witness :
  exists l r',
    Run 3 [step_bind 7; step_bind 8; step_bind 9]
        ([[mkEvent 0x300 0 0 0]; []] ++ [mkEvent SDL_QUIT 0 0 0] :: [[]])
        replay_two_windows
    = Some (l, Ret (0, r'))
    /\ invoked l = indices_from 0 (length [[mkEvent 0x300 0 0 0]; []])
    /\ beats l = beats_from 0 (length [[mkEvent 0x300 0 0 0]; []])
    /\ step_index_ r' = Z.of_nat (length [[mkEvent 0x300 0 0 0]; []]).
Proof.
  apply (Run_interrupted_at_frame
           [step_bind 7; step_bind 8; step_bind 9]
           [[mkEvent 0x300 0 0 0]; []] [mkEvent SDL_QUIT 0 0 0] [[]]
           replay_two_windows 3).
  - repeat (apply List.Forall_cons; [apply step_bind_keeps_cursor|]).
    apply List.Forall_nil.
  - repeat (apply List.Forall_cons; [apply step_bind_returns|]).
    apply List.Forall_nil.
  - repeat (apply List.Forall_cons || apply List.Forall_nil);
      unfold terminating; simpl; intros [H|[H|[_ H]]]; discriminate H.
  - apply Exists_cons_hd. left. reflexivity.
  - simpl. lia.
  - reflexivity.
  - reflexivity.
  - simpl. lia.
Defined.

(* ===================================================================== *)
(** ** The whole program *)
(* ===================================================================== *)

Lemma LoadResources_success (host : Host) (r : Replay) (target dir : string)
    (content : list byte) :
  readlink_self_exe host = Some target ->
  cut_after_last_slash (substring 0 (file_path_size - 1) target) = Some dir ->
  (String.length (dir ++ bin_name_ r) < file_path_size)%nat ->
  file_content host (dir ++ bin_name_ r)%string = Some content ->
  malloc_succeeds host (Z.of_nat (length content)) = true ->
  LoadResources host r
  = ([], Ret (true, set_bin_data (Some content)
                      (set_bin_data_length (Z.of_nat (length content)) r))).
Proof.
  intros Hlink Hdir Hfits Hopen Halloc. unfold LoadResources.
  rewrite Hlink, Hdir.
  destruct (Nat.leb_spec file_path_size (String.length (dir ++ bin_name_ r)));
    [lia|].
  rewrite Hopen. simpl. rewrite Halloc. reflexivity.
Qed.

Lemma invoked_Replay_delete_calls (r : Replay) :
  invoked (Replay_delete_calls r) = [].
Proof.
  unfold Replay_delete_calls. rewrite invoked_app. simpl. rewrite app_nil_r.
  induction (contexts_ r) as [|c cs IH]; [reflexivity|exact IH].
Qed.

Lemma last_Replay_delete_calls (l : list Effect) (r : Replay) :
  last (l ++ Replay_delete_calls r) = Some SDL_Quit.
Proof.
  unfold Replay_delete_calls. rewrite app_assoc. apply last_snoc.
Qed.

(** X16. When [LoadResources] reports failure, [main] never enters the frame
    loop: the exit status is 1, no recorded operation has been invoked and
    no surface presented, and the last call is [SDL_Quit]. *)
Theorem main_load_failure :
  forall (fuel : nat) (host : Host) (trace_name bin_name : string)
         (steps : list StepFunction) (step_count : Z)
         (events : list (list SDL_Event)) (loaded : list Effect) (r : Replay),
    LoadResources host (Replay_new trace_name bin_name step_count)
    = (loaded, Ret (false, r)) ->
    exists l,
      main fuel host trace_name bin_name steps step_count events
      = Some (l, Ret 1)
      /\ invoked l = []
      /\ presented l = []
      /\ last l = Some SDL_Quit.
Proof.
  intros fuel host trace_name bin_name steps step_count events loaded r Hload.
  destruct (LoadResources_frame _ _ _ _ _ Hload)
    as (_ & _ & _ & _ & Hctx & _ & Hprints).
  exists (Replay_new_calls ++ loaded ++ Replay_delete_calls r).
  split; [unfold main; now rewrite Hload|].
  unfold Replay_delete_calls. rewrite Hctx. simpl.
  split; [|split].
  - rewrite invoked_app. now rewrite invoked_prints by exact Hprints.
  - clear -Hprints. induction Hprints as [|e l [m ->] _ IH]; [reflexivity|].
    exact IH.
  - change (last ((SDL_Init :: SDL_GetDesktopDisplayMode :: loaded)
                  ++ [SDL_Quit]) = Some SDL_Quit).
    apply last_snoc.
Qed.

Lemma main_load_failure_witness :
  exists l,
    main 1 host_without_bin "trace" "trace.bin" [step_bind 7] 1 []
    = Some (l, Ret 1)
    /\ invoked l = []
    /\ presented l = []
    /\ last l = Some SDL_Quit.
Proof.
  apply (main_load_failure 1 host_without_bin "trace" "trace.bin"
           [step_bind 7] 1 []
           [Printf (MsgUnableToOpen "trace.bin")]
           (Replay_new "trace" "trace.bin" 1)).
  vm_compute. reflexivity.
Defined.

(** X17. The whole program on a host where the blob loads, for a trace of
    [N >= 1] well-behaved operations and no terminating event: the process
    ends with exit status 0 after invoking the operations [0, ..., N - 1] in
    order, its first call is [SDL_Init] and its last [SDL_Quit]. *)
Theorem main_replays_the_trace :
  forall (fuel : nat) (host : Host) (trace_name bin_name target dir : string)
         (content : list byte) (steps : list StepFunction)
         (events : list (list SDL_Event)),
    readlink_self_exe host = Some target ->
    cut_after_last_slash (substring 0 (file_path_size - 1) target) = Some dir ->
    (String.length (dir ++ bin_name) < file_path_size)%nat ->
    file_content host (dir ++ bin_name)%string = Some content ->
    malloc_succeeds host (Z.of_nat (length content)) = true ->
    steps <> [] ->
    Forall keeps_cursor steps ->
    Forall returns steps ->
    Forall (Forall (fun e => ~ terminating e)) events ->
    (length steps <= fuel)%nat ->
    exists l,
      main fuel host trace_name bin_name steps (Z.of_nat (length steps)) events
      = Some (l, Ret 0)
      /\ invoked l = indices_from 0 (length steps)
      /\ head l = Some SDL_Init
      /\ last l = Some SDL_Quit.
Proof.
  intros fuel host trace_name bin_name target dir content steps events
         Hlink Hdir Hfits Hopen Halloc Hne Hkeep Hret Hquiet Hfuel.
  set (r0 := Replay_new trace_name bin_name (Z.of_nat (length steps))).
  pose proof (LoadResources_success host r0 target dir content
                Hlink Hdir Hfits Hopen Halloc) as Hload.
  set (r1 := set_bin_data (Some content)
               (set_bin_data_length (Z.of_nat (length content)) r0)) in *.
  destruct (frames_run_in_order steps 0 events r1 Hkeep Hret Hquiet)
    as (ran & r2 & Hframes & Hinv & _ & _).
  pose proof (Run_loop_frames steps [] events r1 fuel Hne Hkeep
                eq_refl eq_refl Hfuel) as Hloop.
  change ([] ++ steps) with steps in Hloop.
  change (step_index_ r1) with 0 in Hloop.
  exists (Replay_new_calls ++ [] ++ (ran ++ []) ++ Replay_delete_calls r2).
  split; [|split; [|split]].
  - unfold main. fold r0. rewrite Hload. unfold Run.
    rewrite Hloop, Hframes. reflexivity.
  - rewrite !invoked_app, invoked_Replay_delete_calls, Hinv.
    simpl. now rewrite !app_nil_r.
  - reflexivity.
  - rewrite !app_assoc. apply last_Replay_delete_calls.
Qed.

Lemma main_replays_the_trace_witness :
  exists l,
    main 2 host_ok "trace" "trace.bin" [step_bind 7; step_bind 8]
         (Z.of_nat (length [step_bind 7; step_bind 8])) [[mkEvent 0x300 0 0 0]]
    = Some (l, Ret 0)
    /\ invoked l = indices_from 0 (length [step_bind 7; step_bind 8])
    /\ head l = Some SDL_Init
    /\ last l = Some SDL_Quit.
Proof.
  apply (main_replays_the_trace 2 host_ok "trace" "trace.bin"
           "/opt/replay/trace" "/opt/replay/" blob_100
           [step_bind 7; step_bind 8] [[mkEvent 0x300 0 0 0]]).
  - reflexivity.
  - reflexivity.
  - vm_compute. lia.
  - reflexivity.
  - reflexivity.
  - discriminate.
  - repeat (apply List.Forall_cons; [apply step_bind_keeps_cursor|]).
    apply List.Forall_nil.
  - repeat (apply List.Forall_cons; [apply step_bind_returns|]).
    apply List.Forall_nil.
  - repeat (apply List.Forall_cons || apply List.Forall_nil);
      unfold terminating; simpl; intros [H|[H|[_ H]]]; discriminate H.
  - simpl. lia.
Defined.

(* ===================================================================== *)
(** ** Creating and selecting Surface Contexts *)
(* ===================================================================== *)

(** What a [CreateContext] that returns has done. *)
Lemma CreateContext_inv (win : Windowing) (be : Backend) (handle : Z)
    (g g' : Globals) (r r' : Replay) (l : list Call) (context : nat) :
  CreateContext win be handle g r = (l, Ret (context, g', r')) ->
  exists c,
    context = length (contexts_ r)
    /\ r' = set_contexts (contexts_ r ++ [c])
                         (<[handle := context]> (context_map_ r)) r
    /\ handle_ c = handle
    /\ object_map_ c = ∅
    /\ window_ c
       = created_window win context (window_title_of (trace_name_ r) handle)
    /\ (width_ c, height_ c) = drawable_size win (window_ c)
    /\ snd (InitializeExtensions be g) = Ret g'.
Proof.
  unfold CreateContext, CanvasContext_new.
  destruct (_ <=? _)%nat; [discriminate|].
  destruct (InitializeExtensions be g) as [l0 [g0|code|]];
    [|discriminate|discriminate].
  destruct (drawable_size win _) as [width height] eqn:Hsize.
  intros [= <- <- <- <-]. eexists. repeat split. simpl. now rewrite Hsize.
Qed.

Lemma handle_MakeCurrent (width height : Z) (c : CanvasContext) :
  handle_ (snd (MakeCurrent width height c)) = handle_ c
  /\ window_ (snd (MakeCurrent width height c)) = window_ c.
Proof.
  destruct (MakeCurrent_cases width height c) as [-> | ->]; split; reflexivity.
Qed.

(** What a [MakeContextCurrent] that returns has done. *)
Lemma MakeContextCurrent_inv (handle width height : Z) (r r' : Replay)
    (l : list Effect) (context : nat) :
  MakeContextCurrent handle width height r = (l, Ret (context, r')) ->
  exists c,
    context_map_ r !! handle = Some context
    /\ contexts_ r !! context = Some c
    /\ l = fst (MakeCurrent width height c)
    /\ r' = set_contexts (<[context := snd (MakeCurrent width height c)]>
                            (contexts_ r))
                         (context_map_ r) r.
Proof.
  unfold MakeContextCurrent.
  destruct (context_map_ r !! handle) as [p|]; [|discriminate].
  destruct (contexts_ r !! p) as [c|] eqn:Hc; [|discriminate].
  destruct (MakeCurrent width height c) as [l0 c'] eqn:Hmc.
  intros [= <- <- <-]. exists c. now rewrite Hmc.
Qed.

Lemma registered_ok_CreateContext (win : Windowing) (be : Backend) (handle : Z)
    (g g' : Globals) (r r' : Replay) (l : list Call) (context : nat) :
  CreateContext win be handle g r = (l, Ret (context, g', r')) ->
  registered_ok r -> registered_ok r'.
Proof.
  intros Hcreate Hok.
  destruct (CreateContext_inv _ _ _ _ _ _ _ _ _ Hcreate)
    as (c & -> & -> & Hhandle & _).
  intros h p. simpl. destruct (Z.eq_dec handle h) as [->|Hne].
  - rewrite lookup_insert_eq. intros [= <-]. exists c.
    split; [now apply list_lookup_middle|exact Hhandle].
  - rewrite lookup_insert_ne by exact Hne. intros Hp.
    destruct (Hok h p Hp) as (c0 & Hc0 & Hh0). exists c0.
    split; [|exact Hh0]. rewrite lookup_app_l; [exact Hc0|].
    now apply lookup_lt_Some in Hc0.
Qed.

Lemma registered_ok_MakeContextCurrent (handle width height : Z)
    (r r' : Replay) (l : list Effect) (context : nat) :
  MakeContextCurrent handle width height r = (l, Ret (context, r')) ->
  registered_ok r -> registered_ok r'.
Proof.
  intros Hmake Hok.
  destruct (MakeContextCurrent_inv _ _ _ _ _ _ _ Hmake)
    as (c & _ & Hc & _ & ->).
  intros h p. simpl. intros Hp.
  destruct (Hok h p Hp) as (c0 & Hc0 & Hh0).
  destruct (Nat.eq_dec context p) as [->|Hne].
  - exists (snd (MakeCurrent width height c)).
    split; [apply list_lookup_insert_eq; now apply lookup_lt_Some in Hc0|].
    rewrite (proj1 (handle_MakeCurrent width height c)). congruence.
  - exists c0. split; [|exact Hh0]. now rewrite list_lookup_insert_ne.
Qed.

(** X19. The registration of Surface Contexts is kept consistent: on a new
    orchestrator, and after every [CreateContext], [MakeContextCurrent] and
    [LoadResources] that returns, each registered handle leads to a context
    that exists in [contexts_] and carries that handle. *)
Theorem registered_ok_invariant :
  (forall trace_name bin_name step_count,
      registered_ok (Replay_new trace_name bin_name step_count))
  /\ (forall win be handle g g' r r' l context,
         CreateContext win be handle g r = (l, Ret (context, g', r')) ->
         registered_ok r -> registered_ok r')
  /\ (forall handle width height r r' l context,
         MakeContextCurrent handle width height r = (l, Ret (context, r')) ->
         registered_ok r -> registered_ok r')
  /\ (forall host r r' l ok,
         LoadResources host r = (l, Ret (ok, r')) ->
         registered_ok r -> registered_ok r').
Proof.
  split; [|split; [|split]].
  - intros trace_name bin_name step_count h p. simpl.
    rewrite lookup_empty. discriminate.
  - intros *. apply registered_ok_CreateContext.
  - intros *. apply registered_ok_MakeContextCurrent.
  - intros host r r' l ok Hload Hok.
    destruct (LoadResources_frame _ _ _ _ _ Hload)
      as (_ & _ & _ & _ & Hctx & Hmap & _).
    intros h p. rewrite Hctx, Hmap. apply Hok.
Qed.

(** X20. A handle that [CreateContext] has just registered can be selected: the
    context created is new and last in [contexts_], it carries the handle
    and an empty handle table, the earlier contexts and the registration of
    the other handles are untouched, and [MakeContextCurrent] on the handle
    returns the very pointer [CreateContext] returned, without changing
    anything when no dimensions are given. *)
Theorem CreateContext_then_MakeContextCurrent :
  forall (win : Windowing) (be : Backend) (handle : Z) (g g' : Globals)
         (r r' : Replay) (l : list Call) (context : nat),
    CreateContext win be handle g r = (l, Ret (context, g', r')) ->
    (exists c,
        contexts_ r' = contexts_ r ++ [c]
        /\ contexts_ r' !! context = Some c
        /\ handle_ c = handle
        /\ (forall h, fst (GetObject h c) = 0)
        /\ MakeContextCurrent handle (-1) (-1) r'
           = ([SDL_GL_MakeCurrent (window_ c) (gl_ c)], Ret (context, r')))
    /\ context_map_ r' !! handle = Some context
    /\ (forall h, h <> handle -> context_map_ r' !! h = context_map_ r !! h).
Proof.
  intros win be handle g g' r r' l context Hcreate.
  destruct (CreateContext_inv _ _ _ _ _ _ _ _ _ Hcreate)
    as (c & -> & -> & Hhandle & Htable & _).
  assert (Hlast : (contexts_ r ++ [c]) !! length (contexts_ r) = Some c)
    by now apply list_lookup_middle.
  split; [exists c|split].
  - split; [reflexivity|]. split; [exact Hlast|]. split; [exact Hhandle|].
    split.
    + intros h. rewrite GetObject_value, Htable, lookup_empty.
      now destruct (h =? 0).
    + unfold MakeContextCurrent. simpl. rewrite lookup_insert_eq, Hlast.
      simpl. unfold set_contexts. simpl.
      now rewrite (list_insert_id _ _ _ Hlast).
  - simpl. apply lookup_insert_eq.
  - intros h Hne. simpl. now rewrite lookup_insert_ne.
Qed.

Lemma CreateContext_example :
  CreateContext windowing_example backend_with_instancing 5
                (bootstrapped backend_with_instancing)
                (Replay_new "trace" "trace.bin" 1)
  = ([inl (SDL_GL_SetAttribute "SDL_GL_CONTEXT_MAJOR_VERSION" 2);
      inl (SDL_GL_SetAttribute "SDL_GL_CONTEXT_MINOR_VERSION" 0);
      inl (SDL_GL_SetAttribute "SDL_GL_DOUBLEBUFFER" 1);
      inl (SDL_GL_SetAttribute "SDL_GL_DEPTH_SIZE" 24);
      inl (SDL_CreateWindow "trace : 5" 800 480);
      inl (SDL_GL_CreateContext 100);
      inr (SDL_GL_MakeCurrent 100 200);
      inl (SDL_GL_SetSwapInterval 0);
      inl (SDL_GL_GetDrawableSize 100);
      inr (glViewport 0 0 800 480)],
     Ret (0%nat, bootstrapped backend_with_instancing,
          set_contexts [mkCanvasContext "trace" 5 100 200 800 480 ∅]
                       (<[5 := 0%nat]> ∅)
                       (Replay_new "trace" "trace.bin" 1))).
Proof. vm_compute. reflexivity. Qed.

Lemma CreateContext_then_MakeContextCurrent_witness :
  let r' := set_contexts [mkCanvasContext "trace" 5 100 200 800 480 ∅]
                         (<[5 := 0%nat]> ∅)
                         (Replay_new "trace" "trace.bin" 1) in
  (exists c,
      contexts_ r' = contexts_ (Replay_new "trace" "trace.bin" 1) ++ [c]
      /\ contexts_ r' !! 0%nat = Some c
      /\ handle_ c = 5
      /\ (forall h, fst (GetObject h c) = 0)
      /\ MakeContextCurrent 5 (-1) (-1) r'
         = ([SDL_GL_MakeCurrent (window_ c) (gl_ c)], Ret (0%nat, r')))
  /\ context_map_ r' !! 5 = Some 0%nat
  /\ (forall h, h <> 5 ->
        context_map_ r' !! h
        = context_map_ (Replay_new "trace" "trace.bin" 1) !! h).
Proof.
  exact (CreateContext_then_MakeContextCurrent _ _ _ _ _ _ _ _ _
           CreateContext_example).
Defined.

Lemma registered_ok_invariant_witness :
  registered_ok (set_contexts [mkCanvasContext "trace" 5 100 200 800 480 ∅]
                              (<[5 := 0%nat]> ∅)
                              (Replay_new "trace" "trace.bin" 1)).
Proof.
  apply (proj1 (proj2 registered_ok_invariant) _ _ _ _ _ _ _ _ _
           CreateContext_example).
  apply (proj1 registered_ok_invariant).
Defined.

(** X21. On a consistently registered orchestrator, [MakeContextCurrent] runs into
    the call through a null pointer exactly for the handles that no
    [CreateContext] has registered; for every registered handle it
    returns. *)
Theorem MakeContextCurrent_faults_iff :
  forall (handle width height : Z) (r : Replay),
    registered_ok r ->
    (snd (MakeContextCurrent handle width height r) = Fault
     <-> context_map_ r !! handle = None).
Proof.
  intros handle width height r Hok. unfold MakeContextCurrent.
  destruct (context_map_ r !! handle) as [p|] eqn:Hp; [|tauto].
  destruct (Hok handle p Hp) as (c & -> & _).
  destruct (MakeCurrent width height c). simpl. split; discriminate.
Qed.

Lemma MakeContextCurrent_faults_iff_witness :
  snd (MakeContextCurrent 7 640 360 (Replay_new "trace" "trace.bin" 1)) = Fault
  <-> context_map_ (Replay_new "trace" "trace.bin" 1) !! 7 = None.
Proof.
  apply (MakeContextCurrent_faults_iff 7 640 360
           (Replay_new "trace" "trace.bin" 1)).
  intros h p. simpl. rewrite lookup_empty. discriminate.
Defined.

Lemma capability_queries_app (l1 l2 : list Call) :
  capability_queries (l1 ++ l2)
  = (capability_queries l1 + capability_queries l2)%nat.
Proof.
  unfold capability_queries. now rewrite List.filter_app, length_app.
Qed.

(** A creation whose title fits and whose bootstrap returns, returns; its
    capability queries are those of the bootstrap. *)
Lemma CreateContext_returns (win : Windowing) (be : Backend) (handle : Z)
    (g g' : Globals) (r : Replay) :
  (String.length (window_title_of (trace_name_ r) handle) < title_size)%nat ->
  snd (InitializeExtensions be g) = Ret g' ->
  exists l r',
    CreateContext win be handle g r = (l, Ret (length (contexts_ r), g', r'))
    /\ capability_queries l
       = capability_queries (map inr (fst (InitializeExtensions be g)))
    /\ trace_name_ r' = trace_name_ r
    /\ map handle_ (contexts_ r') = map handle_ (contexts_ r) ++ [handle].
Proof.
  intros Hfits Hboot. unfold CreateContext, CanvasContext_new.
  destruct (Nat.leb_spec title_size
              (String.length (window_title_of (trace_name_ r) handle)));
    [lia|].
  destruct (InitializeExtensions be g) as [l0 [g0|code|]];
    simpl in Hboot; [|discriminate|discriminate].
  injection Hboot as ->.
  destruct (drawable_size win _) as [width height].
  eexists. eexists. split; [reflexivity|]. split; [|split].
  - rewrite !capability_queries_app.
    match goal with
    | |- (?a + ?b + (?c + ?d))%nat = _ =>
        change a with 0%nat; change b with 0%nat; change d with 0%nat
    end.
    cbn [fst Nat.add]. now rewrite Nat.add_0_r.
  - reflexivity.
  - simpl. now rewrite map_app.
Qed.

Lemma CreateContexts_initialized (win : Windowing) (be : Backend) :
  forall (handles : list Z) (g : Globals) (r : Replay),
    extensions_initialized g = true ->
    Forall (fun h => (String.length (window_title_of (trace_name_ r) h)
                      < title_size)%nat) handles ->
    exists l r',
      CreateContexts win be handles g r = (l, Ret (g, r'))
      /\ capability_queries l = 0%nat
      /\ map handle_ (contexts_ r') = map handle_ (contexts_ r) ++ handles.
Proof.
  induction handles as [|h rest IH]; intros g r Hdone Hfit.
  - exists [], r. repeat split. now rewrite app_nil_r.
  - apply Forall_cons in Hfit as [Hh Hrest].
    pose proof (InitializeExtensions_again be g Hdone) as Hboot.
    destruct (CreateContext_returns win be h g g r Hh)
      as (l1 & r1 & Hcreate & Hq1 & Hname & Hctx1); [now rewrite Hboot|].
    rewrite Hboot in Hq1. simpl in Hq1.
    rewrite <- Hname in Hrest.
    destruct (IH g r1 Hdone Hrest) as (l2 & r2 & Hrec & Hq2 & Hctx2).
    exists (l1 ++ l2), r2. simpl. rewrite Hcreate, Hrec.
    split; [reflexivity|]. split.
    + rewrite capability_queries_app, Hq1, Hq2. reflexivity.
    + rewrite Hctx2, Hctx1, <- app_assoc. reflexivity.
Qed.

(** X22. However many Surface Contexts a process creates, the backend is asked
    for the instanced-arrays capability once: creating one context per
    handle of a non-empty list, from the process start and on a backend that
    has the capability, makes exactly one capability query, leaves the
    bootstrap done, and yields the contexts in the order of the handles,
    after those that existed. *)
Theorem CreateContexts_bootstrap_once :
  forall (win : Windowing) (be : Backend) (handle : Z) (rest : list Z)
         (r : Replay),
    extension_supported be "GL_ARB_instanced_arrays" = true ->
    Forall (fun h => (String.length (window_title_of (trace_name_ r) h)
                      < title_size)%nat) (handle :: rest) ->
    exists l r',
      CreateContexts win be (handle :: rest) globals_at_start r
      = (l, Ret (bootstrapped be, r'))
      /\ capability_queries l = 1%nat
      /\ map handle_ (contexts_ r') = map handle_ (contexts_ r) ++ handle :: rest.
Proof.
  intros win be handle rest r Hsupp Hfit.
  apply Forall_cons in Hfit as [Hh Hrest].
  pose proof (InitializeExtensions_first be globals_at_start eq_refl Hsupp)
    as Hboot.
  destruct (CreateContext_returns win be handle globals_at_start
              (bootstrapped be) r Hh)
    as (l1 & r1 & Hcreate & Hq1 & Hname & Hctx1); [now rewrite Hboot|].
  rewrite Hboot in Hq1. rewrite <- Hname in Hrest.
  destruct (CreateContexts_initialized win be rest (bootstrapped be) r1
              eq_refl Hrest) as (l2 & r2 & Hrec & Hq2 & Hctx2).
  exists (l1 ++ l2), r2. simpl. rewrite Hcreate, Hrec.
  split; [reflexivity|]. split.
  - rewrite capability_queries_app, Hq1, Hq2. reflexivity.
  - rewrite Hctx2, Hctx1, <- app_assoc. reflexivity.
Qed.

Lemma CreateContexts_bootstrap_once_witness :
  exists l r',
    CreateContexts windowing_example backend_with_instancing (1 :: [2; 1])
                   globals_at_start (Replay_new "trace" "trace.bin" 1)
    = (l, Ret (bootstrapped backend_with_instancing, r'))
    /\ capability_queries l = 1%nat
    /\ map handle_ (contexts_ r')
       = map handle_ (contexts_ (Replay_new "trace" "trace.bin" 1))
         ++ 1 :: [2; 1].
Proof.
  apply (CreateContexts_bootstrap_once windowing_example
           backend_with_instancing 1 [2; 1]
           (Replay_new "trace" "trace.bin" 1)).
  - reflexivity.
  - repeat (apply List.Forall_cons || apply List.Forall_nil);
      vm_compute; lia.
Defined.

(** X23. On a backend without the instanced-arrays capability, the first context
    creation of a process ends it with exit status 1, after the window and
    its GL context have been created; nothing is registered. *)
Theorem CreateContext_without_capability :
  forall (win : Windowing) (be : Backend) (handle : Z) (g : Globals)
         (r : Replay),
    extensions_initialized g = false ->
    extension_supported be "GL_ARB_instanced_arrays" = false ->
    (String.length (window_title_of (trace_name_ r) handle) < title_size)%nat ->
    snd (CreateContext win be handle g r) = Exit 1
    /\ In (inl (SDL_CreateWindow (window_title_of (trace_name_ r) handle)
                                 800 480))
          (fst (CreateContext win be handle g r))
    /\ In (inr (Printf MsgNoInstancedArrays))
          (fst (CreateContext win be handle g r)).
Proof.
  intros win be handle g r Hfresh Hunsupp Hfits.
  unfold CreateContext, CanvasContext_new.
  destruct (Nat.leb_spec title_size
              (String.length (window_title_of (trace_name_ r) handle)));
    [lia|].
  unfold InitializeExtensions. rewrite Hfresh, Hunsupp. simpl.
  split; [reflexivity|]. split; auto 20.
Qed.

Lemma CreateContext_without_capability_witness :
  snd (CreateContext windowing_example backend_without_instancing 1
                     globals_at_start (Replay_new "trace" "trace.bin" 1))
  = Exit 1
  /\ In (inl (SDL_CreateWindow
                (window_title_of
                   (trace_name_ (Replay_new "trace" "trace.bin" 1)) 1)
                800 480))
        (fst (CreateContext windowing_example backend_without_instancing 1
                            globals_at_start (Replay_new "trace" "trace.bin" 1)))
  /\ In (inr (Printf MsgNoInstancedArrays))
        (fst (CreateContext windowing_example backend_without_instancing 1
                            globals_at_start (Replay_new "trace" "trace.bin" 1))).
Proof.
  apply (CreateContext_without_capability windowing_example
           backend_without_instancing 1 globals_at_start
           (Replay_new "trace" "trace.bin" 1)).
  - reflexivity.
  - reflexivity.
  - vm_compute. lia.
Defined.

Lemma presented_swap_all (r : Replay) :
  presented (swap_all r) = map window_ (contexts_ r).
Proof.
  unfold swap_all. induction (contexts_ r) as [|c cs IH]; [reflexivity|].
  simpl. now rewrite <- IH.
Qed.

(** X24. Every frame presents the windows of the Surface Contexts in the order of
    their creation: the swap loop presents each context of [contexts_] once,
    a [CreateContext] appends its window to that order, and a
    [MakeContextCurrent], whichever context it selects or resizes, leaves
    the order as it is. *)
Theorem presentation_order :
  (forall r, presented (swap_all r) = map window_ (contexts_ r))
  /\ (forall win be handle g g' r r' l context,
         CreateContext win be handle g r = (l, Ret (context, g', r')) ->
         presented (swap_all r')
         = presented (swap_all r)
           ++ [created_window win context
                 (window_title_of (trace_name_ r) handle)])
  /\ (forall handle width height r r' l context,
         MakeContextCurrent handle width height r = (l, Ret (context, r')) ->
         presented (swap_all r') = presented (swap_all r)).
Proof.
  split; [exact presented_swap_all|]. split.
  - intros win be handle g g' r r' l context Hcreate.
    destruct (CreateContext_inv _ _ _ _ _ _ _ _ _ Hcreate)
      as (c & -> & -> & _ & _ & Hwindow & _).
    rewrite !presented_swap_all. simpl. rewrite map_app. simpl.
    now rewrite Hwindow.
  - intros handle width height r r' l context Hmake.
    destruct (MakeContextCurrent_inv _ _ _ _ _ _ _ Hmake)
      as (c & _ & Hc & _ & ->).
    rewrite !presented_swap_all. simpl.
    change (window_ <$> <[context := snd (MakeCurrent width height c)]>
                          (contexts_ r) = window_ <$> contexts_ r).
    rewrite list_fmap_insert.
    rewrite (proj2 (handle_MakeCurrent width height c)).
    apply list_insert_id. now rewrite list_lookup_fmap, Hc.
Qed.

Lemma presentation_order_witness :
  presented (swap_all (set_contexts [mkCanvasContext "trace" 5 100 200 800 480 ∅]
                                    (<[5 := 0%nat]> ∅)
                                    (Replay_new "trace" "trace.bin" 1)))
  = presented (swap_all (Replay_new "trace" "trace.bin" 1))
    ++ [created_window windowing_example 0
          (window_title_of (trace_name_ (Replay_new "trace" "trace.bin" 1)) 5)].
Proof.
  exact (proj1 (proj2 presentation_order) _ _ _ _ _ _ _ _ _
           CreateContext_example).
Defined.

(* ===================================================================== *)
(** ** Operations that end the process, and the exit status *)
(* ===================================================================== *)

Lemma frames_exit : forall (good : list StepFunction) (i : Z)
    (events : list (list SDL_Event)) (r : Replay) (bad : StepFunction)
    (rest : list StepFunction) (code : Z),
  Forall keeps_cursor good ->
  Forall returns good ->
  (forall r0, bad r0 = Exit code) ->
  Forall (Forall (fun e => ~ terminating e)) events ->
  exists l,
    frames (good ++ bad :: rest) i events r = (l, Exit code)
    /\ invoked l = indices_from i (S (length good))
    /\ beats l
       = beats_from i (length good) ++ [Invoke (i + Z.of_nat (length good))].
Proof.
  induction good as [|step good IH];
    intros i events r bad rest code Hkeep Hret Hbad Hquiet;
    assert (Hhd : Forall (fun e => ~ terminating e) (hd [] events))
      by (destruct Hquiet; [constructor|assumption]);
    assert (Htl : Forall (Forall (fun e => ~ terminating e)) (tl events))
      by (destruct Hquiet; [constructor|assumption]);
    pose proof (poll_events_quiet _ Hhd) as Hrunning;
    pose proof (poll_events_prints (hd [] events) true) as Hprints;
    simpl app; simpl frames;
    destruct (poll_events (hd [] events) true) as [polled running];
    simpl in Hrunning, Hprints; subst running; simpl.
  - rewrite Hbad. eexists. split; [reflexivity|].
    rewrite invoked_app, beats_app, invoked_prints, beats_prints
      by exact Hprints.
    rewrite Z.add_0_r. split; reflexivity.
  - apply Forall_cons in Hkeep as [Hstep Hkeep].
    apply Forall_cons in Hret as [Hstepret Hret].
    destruct (Hstepret (set_step_index (i + 1) r)) as [r1 Hrun].
    rewrite Hrun.
    destruct (IH (i + 1) (tl events) r1 bad rest code Hkeep Hret Hbad Htl)
      as (l & Hframes & Hinv & Hbeats).
    rewrite Hframes. eexists. split; [reflexivity|].
    change (Printf (MsgStep i) :: Invoke i :: swap_all r1 ++ [SDL_Delay 16])
      with ([Printf (MsgStep i); Invoke i] ++ swap_all r1 ++ [SDL_Delay 16]).
    rewrite !invoked_app, !beats_app, invoked_prints, beats_prints
      by exact Hprints.
    rewrite invoked_swap_all, beats_swap_all, Hinv, Hbeats.
    replace (i + 1 + Z.of_nat (length good))
      with (i + Z.of_nat (S (length good))) by lia.
    split; reflexivity.
Qed.

(** X15. A recorded operation that ends the process ends the run on the spot.
    When the operations before it are well behaved and no terminating event
    arrives, [Run] does not return: the outcome is the exit with the
    operation's status, reached after invoking the operations up to and
    including that one, in order; the exiting operation's frame is never
    presented or paced, and no later operation runs. *)
Theorem Run_ends_when_a_step_exits :
  forall (good : list StepFunction) (bad : StepFunction)
         (rest : list StepFunction) (code : Z)
         (events : list (list SDL_Event)) (r : Replay) (fuel : nat),
    Forall keeps_cursor (good ++ bad :: rest) ->
    Forall returns good ->
    (forall r0, bad r0 = Exit code) ->
    Forall (Forall (fun e => ~ terminating e)) events ->
    step_index_ r = 0 ->
    step_count_ r = Z.of_nat (length (good ++ bad :: rest)) ->
    (length (good ++ bad :: rest) <= fuel)%nat ->
    exists l,
      Run fuel (good ++ bad :: rest) events r = Some (l, Exit code)
      /\ invoked l = indices_from 0 (S (length good))
      /\ beats l = beats_from 0 (length good) ++ [Invoke (Z.of_nat (length good))].
Proof.
  intros good bad rest code events r fuel Hkeep Hret Hbad Hquiet
         Hidx Hcount Hfuel.
  assert (Hgood : Forall keeps_cursor good)
    by (apply Forall_app in Hkeep; tauto).
  destruct (frames_exit good 0 events r bad rest code Hgood Hret Hbad Hquiet)
    as (l & Hframes & Hinv & Hbeats).
  assert (Hne : good ++ bad :: rest <> []) by (destruct good; discriminate).
  pose proof (Run_loop_frames (good ++ bad :: rest) [] events r fuel
                Hne Hkeep Hidx Hcount Hfuel) as Hloop.
  change ([] ++ (good ++ bad :: rest)) with (good ++ bad :: rest) in Hloop.
  exists l. unfold Run. rewrite Hloop, Hidx, Hframes. simpl.
  repeat split; assumption.
Qed.

Lemma Run_ends_when_a_step_exits_witness :
  exists l,
    Run 3 ([step_bind 7] ++ (fun _ => Exit 1) :: [step_bind 9]) [] replay_two_windows
    = Some (l, Exit 1)
    /\ invoked l = indices_from 0 (S (length [step_bind 7]))
    /\ beats l = beats_from 0 (length [step_bind 7])
                 ++ [Invoke (Z.of_nat (length [step_bind 7]))].
Proof.
  apply (Run_ends_when_a_step_exits [step_bind 7] (fun _ => Exit 1)
           [step_bind 9] 1 [] replay_two_windows 3).
  - apply List.Forall_cons; [apply step_bind_keeps_cursor|].
    apply List.Forall_cons; [intros r r' H; discriminate H|].
    apply List.Forall_cons; [apply step_bind_keeps_cursor|].
    apply List.Forall_nil.
  - apply List.Forall_cons; [apply step_bind_returns|apply List.Forall_nil].
  - reflexivity.
  - apply List.Forall_nil.
  - reflexivity.
  - reflexivity.
  - simpl. lia.
Defined.

(** X18. Whenever the load reports success and the frame loop returns, be it
    after the last operation or on a terminating event, the exit status of
    the process is 0. *)
Theorem main_clean_exit :
  forall (fuel : nat) (host : Host) (trace_name bin_name : string)
         (steps : list StepFunction) (step_count : Z)
         (events : list (list SDL_Event)) (loaded ran : list Effect)
         (r r' : Replay) (code : Z),
    LoadResources host (Replay_new trace_name bin_name step_count)
    = (loaded, Ret (true, r)) ->
    Run fuel steps events r = Some (ran, Ret (code, r')) ->
    exists l,
      main fuel host trace_name bin_name steps step_count events
      = Some (l, Ret 0)
      /\ last l = Some SDL_Quit.
Proof.
  intros fuel host trace_name bin_name steps step_count events loaded ran
         r r' code Hload Hrun.
  pose proof (Run_returns_0 _ _ _ _ _ _ _ Hrun) as ->.
  exists (Replay_new_calls ++ loaded ++ ran ++ Replay_delete_calls r').
  split; [unfold main; now rewrite Hload, Hrun|].
  rewrite !app_assoc. apply last_Replay_delete_calls.
Qed.

Lemma main_clean_exit_witness :
  exists l,
    main 1 host_ok "trace" "trace.bin" [step_bind 7] 1 [[mkEvent SDL_QUIT 0 0 0]]
    = Some (l, Ret 0)
    /\ last l = Some SDL_Quit.
Proof.
  apply (main_clean_exit 1 host_ok "trace" "trace.bin" [step_bind 7] 1
           [[mkEvent SDL_QUIT 0 0 0]] [] [] replay_loaded replay_loaded 0).
  - vm_compute. reflexivity.
  - vm_compute. reflexivity.
Defined.

Lemma poll_events_stops_iff_witness :
  snd (poll_events [mkEvent 0x300 0 0 0; mkEvent SDL_WINDOWEVENT 14 0 0] true)
  = false
  <-> Exists terminating [mkEvent 0x300 0 0 0; mkEvent SDL_WINDOWEVENT 14 0 0].
Proof.
  apply (poll_events_stops_iff
           [mkEvent 0x300 0 0 0; mkEvent SDL_WINDOWEVENT 14 0 0]).
Defined.
